(** * Interview-preparation assistant: response contract layer, AI gateway
      and mock-interview session

    A shallow embedding of [services/geminiService.ts] (the parse/validate
    function and the gateway operations built on it) and of
    [components/MockInterviewModal.tsx] (the session reducer, the render
    guards of its controls and the stop-recording pipeline), with the
    properties of the specification stated over them.

    Conventions.
    - A JavaScript string is a [string]; one [ascii] stands for one code
      unit below 256.
    - A JavaScript number that the code uses as a counter or an index is a
      [Z].
    - A [throw] is the [Throw] constructor of [result]; [try]/[catch] is
      [try_catch].
    - An [await]ed call to the external service is an argument giving the
      outcome of the exchange ([gateway_response]).
    - An [await] on a promise that the code builds itself and that never
      settles is the [Pending] constructor of [result]. *)

From Stdlib Require Import ZArith String Ascii List Bool Lia.
From Stdlib Require Import Decimal DecimalString.
From Stdlib Require QArith.
From stdpp Require Import base option list strings gmap.

Set Warnings "-register-all".

Local Open Scope Z_scope.
Local Open Scope string_scope.

(** ** Exceptions *)

Module JS.

(** [new Error(message)], and the two native errors the code can raise:
    a property read on [null] or [undefined] ([TypeError]) and a failed
    [JSON.parse] ([SyntaxError]). *)
Inductive exn : Type :=
| Error (message : string)
| TypeError
| SyntaxError.

(** How a piece of code ends: it returns, it throws, or it stops at an
    [await] on a promise that never settles and nothing after that
    [await] runs, [catch] and [finally] blocks included. *)
Inductive result (A : Type) : Type :=
| Return (a : A)
| Throw (e : exn)
| Pending.
Arguments Return {A} a.
Arguments Throw {A} e.
Arguments Pending {A}.

#[export] Instance result_ret : MRet result := fun A a => Return a.
#[export] Instance result_bind : MBind result :=
  fun A B f m =>
    match m with Return a => f a | Throw e => Throw e | Pending => Pending end.

(** [try { body } catch (e) { handler(e) }]. *)
Definition try_catch {A} (body : result A) (handler : exn -> result A) : result A :=
  match body with
  | Return a => Return a
  | Throw e => handler e
  | Pending => Pending
  end.

Definition throws {A} (r : result A) : bool :=
  match r with Throw _ => true | _ => false end.

(** ** Strings *)

Definition code (c : ascii) : nat := nat_of_ascii c.

Definition char_is (n : nat) (c : ascii) : bool := Nat.eqb (code c) n.

(** The double-quote character, code unit 34. *)
Definition dquote : ascii := ascii_of_nat 34.

(** White space and line terminators removed by [String.prototype.trim],
    among the code units below 256: TAB, LF, VT, FF, CR, SP and NBSP. *)
Definition is_white_space (c : ascii) : bool :=
  char_is 9 c || char_is 10 c || char_is 11 c || char_is 12 c
  || char_is 13 c || char_is 32 c || char_is 160 c.

Fixpoint trimStart (s : string) : string :=
  match s with
  | EmptyString => EmptyString
  | String c s' => if is_white_space c then trimStart s' else s
  end.

Fixpoint trimEnd (s : string) : string :=
  match s with
  | EmptyString => EmptyString
  | String c s' =>
      match trimEnd s' with
      | EmptyString => if is_white_space c then EmptyString else String c EmptyString
      | t => String c t
      end
  end.

(** [s.trim()]. *)
Definition trim (s : string) : string := trimEnd (trimStart s).

(** [s.startsWith(p)]. *)
Definition startsWith (s p : string) : bool := String.prefix p s.

(** [!s] for a string: only the empty string is falsy. *)
Definition is_empty (s : string) : bool :=
  match s with EmptyString => true | String _ _ => false end.

(** ** JSON values

    What [JSON.parse] returns. A number keeps its lexeme (the code never
    computes with a parsed number); an object keeps its members in source
    order, a later member of the same name overriding an earlier one. *)
Inductive json : Type :=
| JNull
| JBool (b : bool)
| JNum (lexeme : string)
| JStr (s : string)
| JArr (items : list json)
| JObj (members : list (string * json)).

Definition is_structured (v : json) : bool :=
  match v with JArr _ | JObj _ => true | _ => false end.

Fixpoint member (k : string) (ms : list (string * json)) : option json :=
  match ms with
  | [] => None
  | (k', v) :: ms' =>
      match member k ms' with
      | Some w => Some w
      | None => if String.eqb k' k then Some v else None
      end
  end.

Definition string_of_nat (n : nat) : string := NilZero.string_of_uint (Nat.to_uint n).

(** A canonical array index: the decimal numeral of a natural number,
    without leading zeros. *)
Definition array_index (k : string) : option nat :=
  match NilZero.uint_of_string k with
  | Some u =>
      let n := Nat.of_uint u in
      if String.eqb (string_of_nat n) k then Some n else None
  | None => None
  end.

(** The own property [k] of a value [v] that [JSON.parse] returned, [None]
    when [v] has none of that name; [Throw TypeError] on [null], where any
    read fails. A read [v[k]] that finds no own property goes on to the
    prototype chain of [v]: [get] is [v[k]] wherever that chain does not
    define [k] (see [inherited]), as at the names [status], [reason] and
    [companyName] at which the code reads a value, and [is_undefined]
    covers the chain for the keys of a caller. *)
Definition get (v : json) (k : string) : result (option json) :=
  match v with
  | JNull => Throw TypeError
  | JObj ms => Return (member k ms)
  | JArr items =>
      if String.eqb k "length" then Return (Some (JNum (string_of_nat (List.length items))))
      else Return (match array_index k with Some i => items !! i | None => None end)
  | JStr s =>
      if String.eqb k "length" then Return (Some (JNum (string_of_nat (String.length s))))
      else Return (match array_index k with
                   | Some i => match String.get i s with
                               | Some c => Some (JStr (String c EmptyString))
                               | None => None
                               end
                   | None => None
                   end)
  | JBool _ | JNum _ => Return None
  end.

(** The members that the built-in prototypes define under a string name
    (ECMAScript 2024 with its Annex B). Each of them is a function, but
    for [__proto__], which reads the prototype itself, and for the
    [length] of the array and string prototypes, which the own [length]
    of the value hides: none reads [undefined], [null] or a string. *)
Definition Object_prototype : list string :=
  ["constructor"; "__defineGetter__"; "__defineSetter__"; "hasOwnProperty";
   "__lookupGetter__"; "__lookupSetter__"; "isPrototypeOf"; "propertyIsEnumerable";
   "toString"; "valueOf"; "__proto__"; "toLocaleString"].

Definition Array_prototype : list string :=
  ["length"; "constructor"; "at"; "concat"; "copyWithin"; "fill"; "find"; "findIndex";
   "findLast"; "findLastIndex"; "lastIndexOf"; "pop"; "push"; "reverse"; "shift";
   "unshift"; "slice"; "sort"; "splice"; "includes"; "indexOf"; "join"; "keys";
   "entries"; "values"; "forEach"; "filter"; "flat"; "flatMap"; "map"; "every";
   "some"; "reduce"; "reduceRight"; "toLocaleString"; "toString"; "toReversed";
   "toSorted"; "toSpliced"; "with"].

Definition String_prototype : list string :=
  ["length"; "constructor"; "anchor"; "at"; "big"; "blink"; "bold"; "charAt";
   "charCodeAt"; "codePointAt"; "concat"; "endsWith"; "fontcolor"; "fontsize";
   "fixed"; "includes"; "indexOf"; "isWellFormed"; "italics"; "lastIndexOf"; "link";
   "localeCompare"; "match"; "matchAll"; "normalize"; "padEnd"; "padStart"; "repeat";
   "replace"; "replaceAll"; "search"; "slice"; "small"; "split"; "strike"; "sub";
   "substr"; "substring"; "sup"; "startsWith"; "toString"; "toWellFormed"; "trim";
   "trimStart"; "trimLeft"; "trimEnd"; "trimRight"; "toLocaleLowerCase";
   "toLocaleUpperCase"; "toLowerCase"; "toUpperCase"; "valueOf"].

Definition Number_prototype : list string :=
  ["constructor"; "toExponential"; "toFixed"; "toPrecision"; "toString"; "valueOf";
   "toLocaleString"].

Definition Boolean_prototype : list string := ["constructor"; "toString"; "valueOf"].

Definition names (l : list string) (k : string) : bool :=
  existsb (String.eqb k) l.

(** Whether the prototype chain of [v] defines a member named [k]. *)
Definition inherited (v : json) (k : string) : bool :=
  match v with
  | JNull => false
  | JBool _ => names Boolean_prototype k || names Object_prototype k
  | JNum _ => names Number_prototype k || names Object_prototype k
  | JStr _ => names String_prototype k || names Object_prototype k
  | JArr _ => names Array_prototype k || names Object_prototype k
  | JObj _ => names Object_prototype k
  end.

(** [v[k] === undefined]: the value has no own property [k] and inherits
    none. *)
Definition is_undefined (v : json) (k : string) : result bool :=
  p ← get v k;
  Return match p with
         | Some _ => false
         | None => negb (inherited v k)
         end.

(** [typeof v === 'string'] for a property that was read. *)
Definition is_string (p : option json) : bool :=
  match p with Some (JStr _) => true | _ => false end.

(** [p === null]. *)
Definition is_null (p : option json) : bool :=
  match p with Some JNull => true | _ => false end.

(** ** The runtime

    [JSON.parse] belongs to the platform, as do the messages of the native
    errors. [JSON_parse s = None] stands for a [SyntaxError]. *)
Class Runtime : Type := {
  JSON_parse : string -> option json;
  TypeError_message : string;
  SyntaxError_message : string
}.

(** A text that opens with a brace or a bracket parses, when it parses, to
    an object or an array. *)
Definition parse_respects_delimiter (R : Runtime) : Prop :=
  forall s v,
    JSON_parse s = Some v ->
    startsWith s "{" || startsWith s "[" = true ->
    is_structured v = true.

Definition message `{R : Runtime} (e : exn) : string :=
  match e with
  | Error m => m
  | TypeError => TypeError_message
  | SyntaxError => SyntaxError_message
  end.

End JS.

(** ** A reference [JSON.parse]

    A recursive-descent reader of the JSON grammar (ECMA-404), used as the
    runtime on which the examples are evaluated. An escape [\uXXXX] is
    read when its code unit is below 256, the range of the string model. *)

Module JSONText.
Import JS.

(** JSON white space: SP, TAB, LF, CR. *)
Definition is_ws (c : ascii) : bool :=
  char_is 32 c || char_is 9 c || char_is 10 c || char_is 13 c.

Fixpoint skip_ws (s : string) : string :=
  match s with
  | EmptyString => EmptyString
  | String c s' => if is_ws c then skip_ws s' else s
  end.

Definition is_digit (c : ascii) : bool :=
  Nat.leb 48 (code c) && Nat.leb (code c) 57.

(** The longest run of digits at the head of [s], and what follows it. *)
Fixpoint digits (s : string) : string * string :=
  match s with
  | EmptyString => (EmptyString, EmptyString)
  | String c s' =>
      if is_digit c then let '(ds, r) := digits s' in (String c ds, r)
      else (EmptyString, s)
  end.

(** [int]: a zero, or a digit from 1 to 9 followed by digits. *)
Definition int_part (s : string) : option (string * string) :=
  match s with
  | String c s' =>
      if char_is 48 c then Some (String c EmptyString, s')
      else if is_digit c then let '(ds, r) := digits s' in Some (String c ds, r)
      else None
  | EmptyString => None
  end.

(** [frac]: nothing, or a point followed by at least one digit. *)
Definition frac_part (s : string) : option (string * string) :=
  match s with
  | String c s' =>
      if char_is 46 c then
        match digits s' with
        | (EmptyString, _) => None
        | (ds, r) => Some (String c ds, r)
        end
      else Some (EmptyString, s)
  | EmptyString => Some (EmptyString, s)
  end.

(** [exp]: nothing, or [e]/[E], an optional sign and at least one digit. *)
Definition exp_part (s : string) : option (string * string) :=
  match s with
  | String c s' =>
      if char_is 101 c || char_is 69 c then
        let '(sign, s'') :=
          match s' with
          | String d r => if char_is 43 d || char_is 45 d then (String d EmptyString, r)
                          else (EmptyString, s')
          | EmptyString => (EmptyString, s')
          end in
        match digits s'' with
        | (EmptyString, _) => None
        | (ds, r) => Some (String c (sign ++ ds), r)
        end
      else Some (EmptyString, s)
  | EmptyString => Some (EmptyString, s)
  end.

Definition number (s : string) : option (string * string) :=
  let '(sign, s1) :=
    match s with
    | String c r => if char_is 45 c then (String c EmptyString, r) else (EmptyString, s)
    | EmptyString => (EmptyString, s)
    end in
  '(i, s2) ← int_part s1;
  '(f, s3) ← frac_part s2;
  '(e, s4) ← exp_part s3;
  Some (sign ++ i ++ f ++ e, s4).

Definition hex_digit (c : ascii) : option nat :=
  let n := code c in
  if Nat.leb 48 n && Nat.leb n 57 then Some (n - 48)%nat
  else if Nat.leb 65 n && Nat.leb n 70 then Some (n - 55)%nat
  else if Nat.leb 97 n && Nat.leb n 102 then Some (n - 87)%nat
  else None.

(** The character an escape letter stands for. *)
Definition simple_escape (c : ascii) : option ascii :=
  if char_is 34 c then Some dquote
  else if char_is 92 c then Some c
  else if char_is 47 c then Some c
  else if char_is 98 c then Some (ascii_of_nat 8)
  else if char_is 102 c then Some (ascii_of_nat 12)
  else if char_is 110 c then Some (ascii_of_nat 10)
  else if char_is 114 c then Some (ascii_of_nat 13)
  else if char_is 116 c then Some (ascii_of_nat 9)
  else None.

(** The characters of a string literal after its opening quote, up to the
    closing quote, and what follows it. *)
Fixpoint string_body (s : string) : option (string * string) :=
  match s with
  | EmptyString => None
  | String c r =>
      if char_is 34 c then Some (EmptyString, r)
      else if char_is 92 c then
        match r with
        | String e r1 =>
            if char_is 117 e then
              match r1 with
              | String h1 (String h2 (String h3 (String h4 r2))) =>
                  a ← hex_digit h1; b ← hex_digit h2;
                  c' ← hex_digit h3; d ← hex_digit h4;
                  if Nat.eqb a 0 && Nat.eqb b 0 then
                    '(t, rest) ← string_body r2;
                    Some (String (ascii_of_nat (16 * c' + d)) t, rest)
                  else None
              | _ => None
              end
            else
              x ← simple_escape e;
              '(t, rest) ← string_body r1;
              Some (String x t, rest)
        | EmptyString => None
        end
      else if Nat.ltb (code c) 32 then None
      else '(t, rest) ← string_body r; Some (String c t, rest)
  end.

(** [value], [elements] (what follows an opening bracket, up to the closing
    one) and [members] (the same for a brace). Each call spends one unit
    of [fuel]. *)
Fixpoint value (fuel : nat) (s : string) : option (json * string) :=
  match fuel with
  | O => None
  | S fuel' =>
      match skip_ws s with
      | EmptyString => None
      | String c r =>
          if char_is 123 c then
            match skip_ws r with
            | String c' r' =>
                if char_is 125 c' then Some (JObj [], r')
                else '(ms, rest) ← members fuel' r; Some (JObj ms, rest)
            | EmptyString => None
            end
          else if char_is 91 c then
            match skip_ws r with
            | String c' r' =>
                if char_is 93 c' then Some (JArr [], r')
                else '(vs, rest) ← elements fuel' r; Some (JArr vs, rest)
            | EmptyString => None
            end
          else if char_is 34 c then
            '(t, rest) ← string_body r; Some (JStr t, rest)
          else if String.prefix "null" (String c r) then Some (JNull, String.substring 3 (String.length r - 3) r)
          else if String.prefix "true" (String c r) then Some (JBool true, String.substring 3 (String.length r - 3) r)
          else if String.prefix "false" (String c r) then Some (JBool false, String.substring 4 (String.length r - 4) r)
          else '(n, rest) ← number (String c r); Some (JNum n, rest)
      end
  end
with elements (fuel : nat) (s : string) : option (list json * string) :=
  match fuel with
  | O => None
  | S fuel' =>
      '(v, r) ← value fuel' s;
      match skip_ws r with
      | String c r' =>
          if char_is 44 c then '(vs, rest) ← elements fuel' r'; Some (v :: vs, rest)
          else if char_is 93 c then Some ([v], r')
          else None
      | EmptyString => None
      end
  end
with members (fuel : nat) (s : string) : option (list (string * json) * string) :=
  match fuel with
  | O => None
  | S fuel' =>
      match skip_ws s with
      | String q r =>
          if char_is 34 q then
            '(k, r1) ← string_body r;
            match skip_ws r1 with
            | String c r2 =>
                if char_is 58 c then
                  '(v, r3) ← value fuel' r2;
                  match skip_ws r3 with
                  | String c' r4 =>
                      if char_is 44 c' then
                        '(ms, rest) ← members fuel' r4; Some ((k, v) :: ms, rest)
                      else if char_is 125 c' then Some ([(k, v)], r4)
                      else None
                  | EmptyString => None
                  end
                else None
            | EmptyString => None
            end
          else None
      | EmptyString => None
      end
  end.

(** [JSON.parse(s)]: one value, with nothing but white space after it. *)
Definition parse (s : string) : option json :=
  match value (2 * String.length s + 2) s with
  | Some (v, r) => if is_empty (skip_ws r) then Some v else None
  | None => None
  end.

#[export] Instance reference : Runtime := {|
  JSON_parse := parse;
  TypeError_message := "Cannot read properties of undefined";
  SyntaxError_message := "Unexpected token in JSON"
|}.

End JSONText.

(** ** The AI gateway ([services/geminiService.ts]) *)

Module Service.
Import JS.

(** The outcome of one [await ai.models.generateContent(...)]: the promise
    rejects, or it resolves with a response whose [text] is a string or
    [undefined]. The request (model, prompt, schema) selects the exchange
    and has no other part in what the code does with the outcome. *)
Inductive gateway_response : Type :=
| Rejected (reason : exn)
| Resolved (text : option string).

Definition await (response : gateway_response) : result (option string) :=
  match response with
  | Rejected reason => Throw reason
  | Resolved text => Return text
  end.

(** [text.trim()], a [TypeError] when [text] is [undefined]. *)
Definition trim_text (text : option string) : result string :=
  match text with
  | Some t => Return (trim t)
  | None => Throw TypeError
  end.

Definition FormatError : exn :=
  Error "The AI returned a response in an unexpected format. Please try again.".

Definition missing_key (key : string) : exn :=
  Error ("Invalid data structure from AI: missing key "
         ++ String dquote key ++ String dquote ".").

(** [s.split(sep)] for a separator of one character. *)
Fixpoint split (sep : ascii) (s : string) : list string :=
  match s with
  | EmptyString => [EmptyString]
  | String c r =>
      if Ascii.eqb c sep then EmptyString :: split sep r
      else match split sep r with
           | h :: t => String c h :: t
           | [] => [String c EmptyString]
           end
  end.

(** A string that is empty or opens with a character that is not white
    space. *)
Definition starts_clean (s : string) : Prop :=
  match s with
  | EmptyString => True
  | String c _ => is_white_space c = false
  end.

(** Whether the character occurs in the string. *)
Fixpoint occurs (c : ascii) (s : string) : bool :=
  match s with
  | EmptyString => false
  | String c' r => Ascii.eqb c' c || occurs c r
  end.

(** A file as far as the code reads it: what its [FileReader] holds in
    [result] when [readAsDataURL] has ended, the data URL or [null]
    ([None]) after a failed read, and its [type]. *)
Record File : Type := {
  dataURL : option string;
  type : string
}.

(** One part of a request: a text, or inline data with its type. The
    data is [undefined] ([None]) when the data URL had no comma. *)
Inductive Part : Type :=
| TextPart (text : string)
| InlineDataPart (data : option string) (mimeType : string).

(** [fileToGenerativePart]. The promise it awaits is resolved from
    [onloadend] with [reader.result.split(',')[1]] and has no reject
    path: after a failed read [reader.result] is [null], the callback
    throws inside the event and the promise never settles. *)
Definition fileToGenerativePart (file : File) : result Part :=
  match dataURL file with
  | Some dataURL => Return (InlineDataPart (split "," dataURL !! 1%nat) (type file))
  | None => Pending
  end.

Section WithRuntime.
Context `{R : Runtime}.

Definition parse_json (jsonText : string) : result json :=
  match JSON_parse jsonText with
  | Some parsedData => Return parsedData
  | None => Throw SyntaxError
  end.

(** The loop [for (const key of schemaKeys)] of [parseAndValidateJSON]. *)
Fixpoint check_keys (parsedData : json) (schemaKeys : list string) : result unit :=
  match schemaKeys with
  | [] => Return tt
  | key :: rest =>
      undefined ← is_undefined parsedData key;
      if undefined : bool then
        if String.eqb key "followUpQuestion" then check_keys parsedData rest
        else Throw (missing_key key)
      else check_keys parsedData rest
  end.

Definition parseAndValidateJSON (responseText : option string) (schemaKeys : list string)
  : result json :=
  try_catch
    (jsonText ← trim_text responseText;
     if is_empty jsonText
        || negb (startsWith jsonText "{") && negb (startsWith jsonText "[")
     then Throw (Error "AI returned non-JSON response.")
     else
       parsedData ← parse_json jsonText;
       check_keys parsedData schemaKeys;;
       Return parsedData)
    (fun e => Throw FormatError).

(** [['valid', 'improvable', 'invalid'].includes(p)]. *)
Definition is_status (p : option json) : bool :=
  match p with
  | Some (JStr s) => String.eqb s "valid" || String.eqb s "improvable" || String.eqb s "invalid"
  | _ => false
  end.

Definition fallback_validation : json :=
  JObj [("status", JStr "valid");
        ("reason", JStr "Validation check failed, proceeding anyway.")].

Definition validateJobInput (response : gateway_response) : result json :=
  try_catch
    (text ← await response;
     jsonText ← trim_text text;
     parsed ← parse_json jsonText;
     status ← get parsed "status";
     invalid ← (if negb (is_status status) then Return true
                else reason ← get parsed "reason"; Return (negb (is_string reason)));
     if invalid : bool then Throw (Error "AI returned an invalid validation structure.")
     else Return parsed)
    (fun error => Return fallback_validation).

Definition GenerationError_questions : exn :=
  Error "Could not generate interview questions. This could be due to a network issue or a content safety filter on your input. Please check your job description for sensitive terms or try again later.".

Definition generateInterviewQuestions (response : gateway_response) : result json :=
  try_catch
    (text ← await response;
     parseAndValidateJSON text ["questions"; "companyName"; "approachGuide"])
    (fun error => Throw GenerationError_questions).

Definition GenerationError_transcription : exn :=
  Error "Failed to transcribe your audio. The file might be in an unsupported format, or the AI service may be temporarily unavailable. Please try again.".

(** [transcribeAudio]: the clip is read into the request, then the
    exchange is awaited, both inside the [try]. *)
Definition transcribeAudio (audioFile : File) (response : gateway_response)
  : result string :=
  try_catch
    (audioPart ← fileToGenerativePart audioFile;
     text ← await response;
     trim_text text)
    (fun error => Throw GenerationError_transcription).

Definition GenerationError_feedback : exn :=
  Error "Failed to generate feedback for your answer. There might be a temporary issue with the AI service. Please try again.".

Definition generateAnswerFeedback (response : gateway_response) : result json :=
  try_catch
    (text ← await response;
     parseAndValidateJSON text
       ["clarity"; "structure"; "relevance"; "overallImpression";
        "improvementPoints"; "followUpQuestion"])
    (fun error => Throw GenerationError_feedback).

End WithRuntime.

(** [parsedData[key] === undefined]. *)
Definition absent (parsedData : json) (key : string) : Prop :=
  is_undefined parsedData key = Return true.

(** [parsedData[key]] reads a value, possibly [null]. *)
Definition present (parsedData : json) (key : string) : Prop :=
  is_undefined parsedData key = Return false.

(** [r.key] for a result [r] that a gateway operation returned. *)
Definition field (r : json) (key : string) : option json :=
  match get r key with Return p => p | _ => None end.

(** The two fields of an [InterviewPrepResult] that the specification ties
    together. *)
Definition companyName (r : json) : option json := field r "companyName".
Definition approachGuide (r : json) : option json := field r "approachGuide".

(** The verdict that [validateJobInput] lets through: a status among the
    three and a string for a reason. *)
Definition is_verdict (parsed : json) : bool :=
  is_status (field parsed "status") && is_string (field parsed "reason").

End Service.

(** ** Sample response texts *)

Module Samples.
Import JS.

Definition quoted (s : string) : string := String dquote (s ++ String dquote EmptyString).

(** A technical solution that lacks its [explanation]. *)
Definition solution_without_explanation : string :=
  " {" ++ quoted "code" ++ ":" ++ quoted "return 1;" ++ "} ".

(** An interview package that names a company and has [null] for a
    guide. *)
Definition package_with_lone_null : string :=
  "{" ++ quoted "questions" ++ ":[],"
      ++ quoted "companyName" ++ ":" ++ quoted "Acme Corp" ++ ","
      ++ quoted "approachGuide" ++ ":null}".

Definition package_with_lone_null_parsed : json :=
  JObj [("questions", JArr []); ("companyName", JStr "Acme Corp");
        ("approachGuide", JNull)].

End Samples.

(** ** The mock-interview session ([components/MockInterviewModal.tsx]) *)

Module Interview.
Import JS Service.

Inductive QuestionCategory : Type := HR | Technical | Behavioral.

Record InterviewQuestion : Type := {
  question : string;
  category : QuestionCategory;
  suggestedAnswer : string
}.

(** [StructuredFeedback | string]: what [generateAnswerFeedback] returned,
    or a plain message. *)
Inductive Feedback : Type :=
| Structured (f : json)
| Text (s : string).

Record AnswerFeedback : Type := {
  userAnswer : string;
  feedback : Feedback;
  userAudioUrl : option string
}.

Inductive InterviewStep : Type :=
| StepQuestion
| StepFeedback
| StepSummary
| StepPermissionDenied
| StepError.

#[export] Instance InterviewStep_eq_dec : EqDecision InterviewStep.
Proof. solve_decision. Defined.

(** A live capture handle. *)
Definition MediaStream : Type := nat.

Record MockInterviewState : Type := {
  step : InterviewStep;
  currentIndex : Z;
  isRecording : bool;
  isProcessing : bool;
  answers : gmap Z AnswerFeedback;
  audioStream : option MediaStream;
  countdown : option Z;
  recordingTime : Z;
  error : option string;
  isQuestionAudioPlaying : bool
}.

Inductive MockInterviewAction : Type :=
| START_INTERVIEW
| CLOSE_INTERVIEW
| REQUEST_PERMISSION_SUCCESS (stream : MediaStream)
| REQUEST_PERMISSION_FAILURE
| START_COUNTDOWN
| DECREMENT_COUNTDOWN
| START_RECORDING
| STOP_RECORDING
| START_PROCESSING
| FINISH_PROCESSING (answer : AnswerFeedback)
| PROCESSING_ERROR (error : string)
| NEXT_QUESTION (questions : list InterviewQuestion)
| RETRY_QUESTION
| TICK_TIMER
| PLAY_QUESTION_AUDIO
| FINISH_QUESTION_AUDIO.

Definition initialState : MockInterviewState := {|
  step := StepQuestion;
  currentIndex := 0;
  isRecording := false;
  isProcessing := false;
  answers := ∅;
  audioStream := None;
  countdown := None;
  recordingTime := 0;
  error := None;
  isQuestionAudioPlaying := false
|}.

(** The spread updates [{ ...state, field: value }], one setter a field. *)
Definition with_step (v : InterviewStep) (s : MockInterviewState) : MockInterviewState :=
  {| step := v; currentIndex := currentIndex s; isRecording := isRecording s;
     isProcessing := isProcessing s; answers := answers s; audioStream := audioStream s;
     countdown := countdown s; recordingTime := recordingTime s; error := error s;
     isQuestionAudioPlaying := isQuestionAudioPlaying s |}.

Definition with_currentIndex (v : Z) (s : MockInterviewState) : MockInterviewState :=
  {| step := step s; currentIndex := v; isRecording := isRecording s;
     isProcessing := isProcessing s; answers := answers s; audioStream := audioStream s;
     countdown := countdown s; recordingTime := recordingTime s; error := error s;
     isQuestionAudioPlaying := isQuestionAudioPlaying s |}.

Definition with_isRecording (v : bool) (s : MockInterviewState) : MockInterviewState :=
  {| step := step s; currentIndex := currentIndex s; isRecording := v;
     isProcessing := isProcessing s; answers := answers s; audioStream := audioStream s;
     countdown := countdown s; recordingTime := recordingTime s; error := error s;
     isQuestionAudioPlaying := isQuestionAudioPlaying s |}.

Definition with_isProcessing (v : bool) (s : MockInterviewState) : MockInterviewState :=
  {| step := step s; currentIndex := currentIndex s; isRecording := isRecording s;
     isProcessing := v; answers := answers s; audioStream := audioStream s;
     countdown := countdown s; recordingTime := recordingTime s; error := error s;
     isQuestionAudioPlaying := isQuestionAudioPlaying s |}.

Definition with_answers (v : gmap Z AnswerFeedback) (s : MockInterviewState)
  : MockInterviewState :=
  {| step := step s; currentIndex := currentIndex s; isRecording := isRecording s;
     isProcessing := isProcessing s; answers := v; audioStream := audioStream s;
     countdown := countdown s; recordingTime := recordingTime s; error := error s;
     isQuestionAudioPlaying := isQuestionAudioPlaying s |}.

Definition with_audioStream (v : option MediaStream) (s : MockInterviewState)
  : MockInterviewState :=
  {| step := step s; currentIndex := currentIndex s; isRecording := isRecording s;
     isProcessing := isProcessing s; answers := answers s; audioStream := v;
     countdown := countdown s; recordingTime := recordingTime s; error := error s;
     isQuestionAudioPlaying := isQuestionAudioPlaying s |}.

Definition with_countdown (v : option Z) (s : MockInterviewState) : MockInterviewState :=
  {| step := step s; currentIndex := currentIndex s; isRecording := isRecording s;
     isProcessing := isProcessing s; answers := answers s; audioStream := audioStream s;
     countdown := v; recordingTime := recordingTime s; error := error s;
     isQuestionAudioPlaying := isQuestionAudioPlaying s |}.

Definition with_recordingTime (v : Z) (s : MockInterviewState) : MockInterviewState :=
  {| step := step s; currentIndex := currentIndex s; isRecording := isRecording s;
     isProcessing := isProcessing s; answers := answers s; audioStream := audioStream s;
     countdown := countdown s; recordingTime := v; error := error s;
     isQuestionAudioPlaying := isQuestionAudioPlaying s |}.

Definition with_error (v : option string) (s : MockInterviewState) : MockInterviewState :=
  {| step := step s; currentIndex := currentIndex s; isRecording := isRecording s;
     isProcessing := isProcessing s; answers := answers s; audioStream := audioStream s;
     countdown := countdown s; recordingTime := recordingTime s; error := v;
     isQuestionAudioPlaying := isQuestionAudioPlaying s |}.

Definition with_isQuestionAudioPlaying (v : bool) (s : MockInterviewState)
  : MockInterviewState :=
  {| step := step s; currentIndex := currentIndex s; isRecording := isRecording s;
     isProcessing := isProcessing s; answers := answers s; audioStream := audioStream s;
     countdown := countdown s; recordingTime := recordingTime s; error := error s;
     isQuestionAudioPlaying := v |}.

(** The next state. The two cases that stop the tracks of the live stream
    do so on the side ([stopped_tracks]). *)
Definition mockInterviewReducer (state : MockInterviewState) (action : MockInterviewAction)
  : MockInterviewState :=
  match action with
  | START_INTERVIEW => initialState
  | CLOSE_INTERVIEW => with_audioStream None initialState
  | REQUEST_PERMISSION_SUCCESS stream => with_audioStream (Some stream) state
  | REQUEST_PERMISSION_FAILURE => with_step StepPermissionDenied state
  | START_COUNTDOWN => with_countdown (Some 3) state
  | DECREMENT_COUNTDOWN =>
      with_countdown (match countdown state with
                      | Some c => Some (c - 1)
                      | None => None
                      end) state
  | START_RECORDING =>
      with_recordingTime 0 (with_countdown None (with_isRecording true state))
  | STOP_RECORDING => with_audioStream None (with_isRecording false state)
  | START_PROCESSING => with_isProcessing true state
  | FINISH_PROCESSING answer =>
      let newAnswers := <[currentIndex state := answer]> (answers state) in
      with_isQuestionAudioPlaying false
        (with_answers newAnswers (with_step StepFeedback (with_isProcessing false state)))
  | PROCESSING_ERROR error =>
      with_error (Some error) (with_step StepError (with_isProcessing false state))
  | NEXT_QUESTION questions =>
      if (currentIndex state <? Z.of_nat (List.length questions) - 1)%Z then
        with_isQuestionAudioPlaying false
          (with_currentIndex (currentIndex state + 1) (with_step StepQuestion state))
      else with_isQuestionAudioPlaying false (with_step StepSummary state)
  | RETRY_QUESTION => with_isQuestionAudioPlaying false (with_step StepQuestion state)
  | TICK_TIMER => with_recordingTime (recordingTime state + 1) state
  | PLAY_QUESTION_AUDIO => with_isQuestionAudioPlaying true state
  | FINISH_QUESTION_AUDIO => with_isQuestionAudioPlaying false state
  end.

(** The stream whose tracks a transition stops. *)
Definition stopped_tracks (state : MockInterviewState) (action : MockInterviewAction)
  : option MediaStream :=
  match action with
  | CLOSE_INTERVIEW | STOP_RECORDING => audioStream state
  | _ => None
  end.

(** *** Render guards

    A control dispatches only while it is rendered and enabled. The Record
    button is the last branch but one of the question view: it is there
    when no analysis is running, the step is [question], no countdown is
    shown and nothing is being recorded, and it is disabled while the
    question is read aloud. *)
Definition Record_button_enabled (s : MockInterviewState) : bool :=
  negb (isProcessing s)
  && bool_decide (step s = StepQuestion)
  && bool_decide (countdown s = None)
  && negb (isRecording s)
  && negb (isQuestionAudioPlaying s).

Definition Stop_button_rendered (s : MockInterviewState) : bool :=
  negb (isProcessing s)
  && bool_decide (step s = StepQuestion)
  && bool_decide (countdown s = None)
  && isRecording s.

(** The Retry and Next buttons of the footer. *)
Definition feedback_footer_rendered (s : MockInterviewState) : bool :=
  bool_decide (step s = StepFeedback).

(** Which actions the component can dispatch in a state. A click is
    reduced in the state that was rendered when it happened, so the
    actions of a control follow its guard; those of effects, timers and
    completions of awaited calls can arrive in any state. *)
Definition can_dispatch (s : MockInterviewState) (a : MockInterviewAction) : bool :=
  match a with
  | START_COUNTDOWN => Record_button_enabled s
  | STOP_RECORDING => Stop_button_rendered s
  | NEXT_QUESTION _ | RETRY_QUESTION => feedback_footer_rendered s
  | _ => true
  end.

Inductive reachable : MockInterviewState -> Prop :=
| reachable_initial : reachable initialState
| reachable_dispatch s a :
    reachable s -> can_dispatch s a = true -> reachable (mockInterviewReducer s a).

(** *** The stop-recording pipeline *)

(** A recorded clip or one chunk of it: its bytes. *)
Definition Blob : Type := list Byte.byte.

(** [new Blob(chunks)]. *)
Definition new_Blob (chunks : list Blob) : Blob := List.concat chunks.

Definition size (b : Blob) : Z := Z.of_nat (List.length b).

(** What the handler does to the outside, in order. *)
Inductive event : Type :=
| Dispatch (action : MockInterviewAction)
| RevokeObjectURL (url : string)
| CreateObjectURL (blob : Blob) (url : string)
| TranscribeAudio (audio : Blob)
| GenerateAnswerFeedback (question answer jobRole : string).

(** What the outside answers: the URL minted for a clip, what a
    [FileReader] yields for it (the data URL, or [None] after a failed
    read) and the outcome of the exchange behind each of the two gateway
    calls. *)
Record Outside : Type := {
  createObjectURL : Blob -> string;
  readAsDataURL : Blob -> option string;
  transcription : gateway_response;
  feedback_generation : gateway_response
}.

(** [new File([blob], name, { type })]. *)
Definition new_File (out : Outside) (blob : Blob) (type : string) : File :=
  {| dataURL := readAsDataURL out blob; type := type |}.

(** A computation that leaves a trace of events and returns, throws or
    stays pending. *)
Definition Task (A : Type) : Type := list event * result A.

#[export] Instance Task_ret : MRet Task := fun A a => ([], Return a).
#[export] Instance Task_bind : MBind Task :=
  fun A B f m =>
    match m with
    | (t, Return a) => let '(t', r) := f a in ((t ++ t')%list, r)
    | (t, Throw e) => (t, Throw e)
    | (t, Pending) => (t, Pending)
    end.

Definition emit (e : event) : Task unit := ([e], Return tt).
Definition dispatch (a : MockInterviewAction) : Task unit := emit (Dispatch a).
Definition lift {A} (r : result A) : Task A := ([], r).

Definition Task_try {A} (body : Task A) (handler : exn -> Task A) : Task A :=
  match body with
  | (t, Return a) => (t, Return a)
  | (t, Throw e) => let '(t', r) := handler e in ((t ++ t')%list, r)
  | (t, Pending) => (t, Pending)
  end.

Definition trace {A} (m : Task A) : list event := fst m.

(** [questions[i]]. *)
Definition nth_question (questions : list InterviewQuestion) (i : Z)
  : option InterviewQuestion :=
  if (i <? 0)%Z then None else questions !! Z.to_nat i.

Definition no_audio_answer (userAudioUrl : string) : AnswerFeedback := {|
  userAnswer := "(No audio was detected)";
  feedback := Text "It seems no audio was captured. Please ensure your microphone is working correctly and try recording your answer again.";
  userAudioUrl := Some userAudioUrl
|}.

Definition not_understood_answer (userAudioUrl : string) : AnswerFeedback := {|
  userAnswer := "(Could not understand audio)";
  feedback := Text "We had trouble understanding the audio. Could you please try speaking more clearly and try again?";
  userAudioUrl := Some userAudioUrl
|}.

Section WithRuntime.
Context `{R : Runtime}.

(** [answers.get(currentIndex)?.userAudioUrl]. *)
Definition previous_url (state : MockInterviewState) : option string :=
  answers state !! currentIndex state ≫= userAudioUrl.

(** [err.message || "An unknown error ..."]. *)
Definition error_message (err : exn) : string :=
  if is_empty (message err)
  then "An unknown error occurred while processing your answer."
  else message err.

(** The [onstop] callback that [handleStopRecording] installs. [state],
    [questions] and [jobRole] are those of the render in which the handler
    was created; [audioChunks] are the chunks collected when the recorder
    has stopped. *)
Definition onstop (out : Outside) (state : MockInterviewState)
    (questions : list InterviewQuestion) (jobRole : string)
    (audioChunks : list Blob) : Task unit :=
  dispatch START_PROCESSING;;
  let audioBlob := new_Blob audioChunks in
  match previous_url state with
  | Some url => if is_empty url then mret tt else emit (RevokeObjectURL url)
  | None => mret tt
  end;;
  let userAudioUrl := createObjectURL out audioBlob in
  emit (CreateObjectURL audioBlob userAudioUrl);;
  if (size audioBlob <? 200)%Z then
    dispatch (FINISH_PROCESSING (no_audio_answer userAudioUrl))
  else
    let audioFile := new_File out audioBlob "audio/webm" in
    Task_try
      (emit (TranscribeAudio audioBlob);;
       transcribedText ← lift (transcribeAudio audioFile (transcription out));
       if is_empty (trim transcribedText) then
         dispatch (FINISH_PROCESSING (not_understood_answer userAudioUrl))
       else
         currentQuestion ← lift (match nth_question questions (currentIndex state) with
                                 | Some q => Return (question q)
                                 | None => Throw TypeError
                                 end);
         emit (GenerateAnswerFeedback currentQuestion transcribedText jobRole);;
         feedback ← lift (generateAnswerFeedback (feedback_generation out));
         dispatch (FINISH_PROCESSING {| userAnswer := transcribedText;
                                        feedback := Structured feedback;
                                        userAudioUrl := Some userAudioUrl |}))
      (fun err => dispatch (PROCESSING_ERROR (error_message err))).

(** [mediaRecorder.current.state]. *)
Inductive RecordingState : Type := inactive | recording | paused.

(** [handleStopRecording]: when a recorder exists and is recording, it is
    stopped, [STOP_RECORDING] is dispatched, and the [onstop] callback
    runs once the recorder has delivered its last chunk. *)
Definition handleStopRecording (out : Outside) (mediaRecorder : option RecordingState)
    (state : MockInterviewState) (questions : list InterviewQuestion)
    (jobRole : string) (audioChunks : list Blob) : list event :=
  match mediaRecorder with
  | Some recording =>
      Dispatch STOP_RECORDING :: trace (onstop out state questions jobRole audioChunks)
  | _ => []
  end.

End WithRuntime.

(** The session after the dispatches of a trace, in order. *)
Definition run (s : MockInterviewState) (t : list event) : MockInterviewState :=
  foldl (fun s e => match e with
                    | Dispatch a => mockInterviewReducer s a
                    | _ => s
                    end) s t.

(** The actions that can reach the reducer between a Retry and the next
    click on the Stop button: the question is read, the countdown runs,
    the microphone is granted and the recording clock ticks. *)
Definition recording_phase (a : MockInterviewAction) : bool :=
  match a with
  | PLAY_QUESTION_AUDIO | FINISH_QUESTION_AUDIO | START_COUNTDOWN
  | DECREMENT_COUNTDOWN | REQUEST_PERMISSION_SUCCESS _ | START_RECORDING
  | TICK_TIMER => true
  | _ => false
  end.

Definition reduce_all (s : MockInterviewState) (acts : list MockInterviewAction)
  : MockInterviewState :=
  foldl mockInterviewReducer s acts.

(** Every action of the list can be dispatched in the state it meets. *)
Fixpoint admissible (s : MockInterviewState) (acts : list MockInterviewAction) : bool :=
  match acts with
  | [] => true
  | a :: acts' => can_dispatch s a && admissible (mockInterviewReducer s a) acts'
  end.

(** The events of a trace that come before the first event satisfying
    [p]. *)
Fixpoint before (p : event -> bool) (t : list event) : list event :=
  match t with
  | [] => []
  | e :: t' => if p e then [] else e :: before p t'
  end.

Definition is_CreateObjectURL (e : event) : bool :=
  match e with CreateObjectURL _ _ => true | _ => false end.

Definition is_FINISH_PROCESSING (e : event) : bool :=
  match e with Dispatch (FINISH_PROCESSING _) => true | _ => false end.

End Interview.

(** ** Sample sessions *)

Module Scenario.
Import JS Service Interview.

Definition questions : list InterviewQuestion :=
  [ {| question := "Tell me about yourself.";
       category := HR;
       suggestedAnswer := "I am a backend developer with five years of experience." |};
    {| question := "How do you test a service?";
       category := Technical;
       suggestedAnswer := "I start from the contract of the service." |} ].

(** A clip of 50 bytes and a clip of 240 bytes in two chunks. *)
Definition silent_clip : list Blob := [repeat Byte.x00 50].
Definition spoken_clip : list Blob := [repeat Byte.x01 120; repeat Byte.x02 120].

Definition outside (transcription feedback_generation : gateway_response) : Outside := {|
  createObjectURL := fun _ => "blob:answer-2";
  readAsDataURL := fun _ => Some "data:audio/webm;base64,AQEB";
  transcription := transcription;
  feedback_generation := feedback_generation
|}.

(** The same, for a clip that cannot be read. *)
Definition unreadable (transcription feedback_generation : gateway_response) : Outside := {|
  createObjectURL := fun _ => "blob:answer-2";
  readAsDataURL := fun _ => None;
  transcription := transcription;
  feedback_generation := feedback_generation
|}.

(** The first question has been answered and its feedback is shown. *)
Definition answered : MockInterviewState := {|
  step := StepFeedback;
  currentIndex := 0;
  isRecording := false;
  isProcessing := false;
  answers := {[ 0 := {| userAnswer := "I am a developer.";
                        feedback := Text "Say more about your last project.";
                        userAudioUrl := Some "blob:answer-1" |} ]};
  audioStream := None;
  countdown := None;
  recordingTime := 12;
  error := None;
  isQuestionAudioPlaying := false
|}.

(** The same for the last question. *)
Definition answered_last : MockInterviewState := with_currentIndex 1 answered.

(** From Retry to the click on Stop: the question is read, the countdown
    runs down, the microphone is granted and two seconds are recorded. *)
Definition retry_to_stop : list MockInterviewAction :=
  [PLAY_QUESTION_AUDIO; FINISH_QUESTION_AUDIO; START_COUNTDOWN;
   DECREMENT_COUNTDOWN; DECREMENT_COUNTDOWN; DECREMENT_COUNTDOWN;
   REQUEST_PERMISSION_SUCCESS 1%nat; START_RECORDING; TICK_TIMER; TICK_TIMER].

End Scenario.

(** ** The other gateway operations ([services/geminiService.ts]) *)

Module Gateway.
Import JS Service.

(** A file was attached and its read failed. *)
Definition unreadable (file : option File) : bool :=
  match file with
  | Some file => bool_decide (dataURL file = None)
  | None => false
  end.

Definition GenerationError_solution : exn :=
  Error "The AI failed to generate a solution. Your request might have been blocked for safety reasons, or there could be a temporary network issue. Please review your problem description and try again.".

(** [generateTechnicalSolution]: the file, when there is one, is read
    into the request before the [try] and the exchange. *)
Definition generateTechnicalSolution `{R : Runtime} (file : option File)
    (response : gateway_response) : result json :=
  match file with
  | Some file => filePart ← fileToGenerativePart file; Return tt
  | None => Return tt
  end;;
  try_catch
    (text ← await response;
     parseAndValidateJSON text ["explanation"; "code"])
    (fun error => Throw GenerationError_solution).

(** The response of the speech model, as far as [textToSpeech] reads it:
    [response.candidates?.[0]?.content?.parts?.[0]?.inlineData?.data]. *)
Record InlineData : Type := { data : option string }.
Record ContentPart : Type := { inlineData : option InlineData }.
Record Content : Type := { parts : option (list ContentPart) }.
Record Candidate : Type := { content : option Content }.
Record SpeechResponse : Type := { candidates : option (list Candidate) }.

Inductive speech_outcome : Type :=
| SpeechRejected (reason : exn)
| SpeechResolved (response : SpeechResponse).

Definition inline_audio (response : SpeechResponse) : option string :=
  candidates ← candidates response;
  candidate ← head candidates;
  content ← content candidate;
  parts ← parts content;
  part ← head parts;
  inlineData ← inlineData part;
  data inlineData.

Definition GenerationError_speech : exn :=
  Error "Failed to generate audio for the question.".

Definition textToSpeech (outcome : speech_outcome) : result string :=
  try_catch
    (response ← match outcome with
                | SpeechRejected reason => Throw reason
                | SpeechResolved response => Return response
                end;
     match inline_audio response with
     | Some base64Audio =>
         if is_empty base64Audio then Throw (Error "No audio data received from API.")
         else Return base64Audio
     | None => Throw (Error "No audio data received from API.")
     end)
    (fun error => Throw GenerationError_speech).

End Gateway.

(** ** Audio helpers ([components/MockInterviewModal.tsx]) *)

Module Audio.
Import JS.

(** [atob] belongs to the platform; [None] stands for its
    [InvalidCharacterError]. *)
Class Base64 : Type := { atob : string -> option string }.

(** The errors of the platform that the helpers can meet, named by kind;
    their messages are never read. *)
Definition InvalidCharacterError : exn := Error "InvalidCharacterError".
Definition RangeError : exn := Error "RangeError".
Definition NotSupportedError : exn := Error "NotSupportedError".

(** [decode]: the bytes of the binary string that [atob] returns. *)
Definition decode `{B : Base64} (base64 : string) : result (list Byte.byte) :=
  match atob base64 with
  | Some binaryString => Return (list_byte_of_string binaryString)
  | None => Throw InvalidCharacterError
  end.

Definition byte_value (b : Byte.byte) : Z := Z.of_N (Byte.to_N b).

(** One signed 16-bit sample from its two bytes, low byte first, as on
    the little-endian machines that browsers run on. *)
Definition int16 (lo hi : Byte.byte) : Z :=
  let u := byte_value lo + 256 * byte_value hi in
  if (u <? 32768)%Z then u else u - 65536.

(** [new Int16Array(data.buffer)]: a [RangeError] when the byte length is
    odd. *)
Fixpoint Int16Array (data : list Byte.byte) : result (list Z) :=
  match data with
  | [] => Return []
  | [_] => Throw RangeError
  | lo :: hi :: rest => samples ← Int16Array rest; Return (int16 lo hi :: samples)
  end.

(** A playback buffer: one list of samples a channel. A sample is the
    quotient of a 16-bit integer by 32768, which a 32-bit float holds
    exactly. *)
Record AudioBuffer : Type := {
  sampleRate : Z;
  channelData : list (list QArith_base.Q)
}.

(** [dataInt16[k] / 32768.0]; the index is within the array wherever the
    loops of [decodeAudioData] write into the buffer. *)
Definition normalized (dataInt16 : list Z) (k : nat) : QArith_base.Q :=
  QArith_base.Qmake (List.nth k dataInt16 0) 32768.

(** The limits of [ctx.createBuffer], which belong to the platform: the
    sample rates it supports and the most channels it allows. Besides
    them it refuses a count of channels or of frames below one. *)
Class AudioContext : Type := {
  supports_rate : Z -> bool;
  max_channels : Z
}.

Definition createBuffer_accepts `{C : AudioContext} (numChannels : Z) (length : nat)
    (sampleRate : Z) : bool :=
  (1 <=? numChannels)%Z && (numChannels <=? max_channels)%Z
  && Nat.leb 1 length && supports_rate sampleRate.

(** [decodeAudioData]. The buffer has [numChannels] channels of
    [frameCount] frames, the integral part of the quotient. *)
Definition decodeAudioData `{C : AudioContext} (data : list Byte.byte)
    (sampleRate numChannels : Z) : result AudioBuffer :=
  dataInt16 ← Int16Array data;
  let frameCount := Z.to_nat (Z.of_nat (List.length dataInt16) / numChannels) in
  if createBuffer_accepts numChannels frameCount sampleRate then
    Return {| sampleRate := sampleRate;
              channelData :=
                List.map (fun channel =>
                  List.map (fun i => normalized dataInt16 (i * Z.to_nat numChannels + channel))
                           (List.seq 0 frameCount))
                  (List.seq 0 (Z.to_nat numChannels)) |}
  else Throw NotSupportedError.

(** The limits that every implementation grants: rates from 8000 to
    96000 and 32 channels. *)
#[export] Instance granted_limits : AudioContext := {|
  supports_rate := fun rate => (8000 <=? rate)%Z && (rate <=? 96000)%Z;
  max_channels := 32
|}.

(** *** A reference [atob]

    The forgiving base64 decoding of the platform: white space is
    dropped, one or two padding signs are dropped from a text whose length
    is a multiple of four, a length of one beyond a multiple of four or a
    character outside the alphabet is an error, and left-over bits are
    discarded. *)

Definition is_base64_space (c : ascii) : bool :=
  char_is 9 c || char_is 10 c || char_is 12 c || char_is 13 c || char_is 32 c.

Fixpoint strip_spaces (s : string) : string :=
  match s with
  | EmptyString => EmptyString
  | String c r => if is_base64_space c then strip_spaces r else String c (strip_spaces r)
  end.

(** The six bits a character of the alphabet stands for. *)
Definition sextet (c : ascii) : option nat :=
  let n := code c in
  if Nat.leb 65 n && Nat.leb n 90 then Some (n - 65)%nat
  else if Nat.leb 97 n && Nat.leb n 122 then Some (n - 71)%nat
  else if Nat.leb 48 n && Nat.leb n 57 then Some (n + 4)%nat
  else if Nat.eqb n 43 then Some 62%nat
  else if Nat.eqb n 47 then Some 63%nat
  else None.

Fixpoint sextets (s : string) : option (list nat) :=
  match s with
  | EmptyString => Some []
  | String c r => a ← sextet c; rest ← sextets r; Some (a :: rest)
  end.

(** Drops the padding of a text whose length is a multiple of four. *)
Definition strip_padding (s : string) : string :=
  let n := String.length s in
  if Nat.eqb (n mod 4) 0 then
    if String.eqb (String.substring (n - 2) 2 s) "==" then String.substring 0 (n - 2) s
    else if String.eqb (String.substring (n - 1) 1 s) "=" then String.substring 0 (n - 1) s
    else s
  else s.

Fixpoint bytes_of_sextets (l : list nat) : string :=
  match l with
  | a :: b :: c :: d :: rest =>
      String (ascii_of_nat (a * 4 + b / 16))
        (String (ascii_of_nat ((b mod 16) * 16 + c / 4))
           (String (ascii_of_nat ((c mod 4) * 64 + d)) (bytes_of_sextets rest)))
  | [a; b; c] =>
      String (ascii_of_nat (a * 4 + b / 16))
        (String (ascii_of_nat ((b mod 16) * 16 + c / 4)) EmptyString)
  | [a; b] => String (ascii_of_nat (a * 4 + b / 16)) EmptyString
  | _ => EmptyString
  end.

Definition reference_atob (s : string) : option string :=
  let t := strip_padding (strip_spaces s) in
  if Nat.eqb (String.length t mod 4) 1 then None
  else l ← sextets t; Some (bytes_of_sextets l).

#[export] Instance reference : Base64 := {| atob := reference_atob |}.

End Audio.

(** ** Small views ([components/MockInterviewModal.tsx]) *)

Module View.
Import JS.

(** [n.toString()] for an integer. *)
Definition toString (n : Z) : string := NilZero.string_of_int (Z.to_int n).

(** [s.padStart(2, '0')]. *)
Definition padStart2 (s : string) : string :=
  match String.length s with
  | O => "00"
  | S O => String "0" s
  | _ => s
  end.

(** [formatTime]: [Math.floor(seconds / 60)] and [seconds % 60], each
    padded to two characters. *)
Definition formatTime (seconds : Z) : string :=
  let mins := padStart2 (toString (seconds / 60)) in
  let secs := padStart2 (toString (Z.rem seconds 60)) in
  mins ++ ":" ++ secs.

(** The character of a decimal digit. *)
Definition digit (d : Z) : ascii := ascii_of_nat (48 + Z.to_nat d).

(** Minutes and seconds on two digits each. *)
Definition mm_ss (seconds : Z) : string :=
  String (digit (seconds / 600))
    (String (digit (seconds / 60 mod 10))
       (String ":"
          (String (digit (seconds mod 60 / 10))
             (String (digit (seconds mod 10)) EmptyString)))).

(** The seconds that a text of five characters stands for, read as
    minutes and seconds. *)
Definition read_mm_ss (text : string) : Z :=
  match List.map (fun c => Z.of_nat (code c) - 48) (list_ascii_of_string text) with
  | [a; b; _; c; d] => 600 * a + 60 * b + 10 * c + d
  | _ => -1
  end.

(** [RatingDisplay] for an integral score: the five stars, star [i]
    filled when [i < score]. *)
Definition RatingDisplay (score : Z) : list bool :=
  List.map (fun i => (i <? score)%Z) [0; 1; 2; 3; 4].

End View.

(** ** The rest of the session component ([components/MockInterviewModal.tsx]) *)

Module Session.
Import JS Service Interview Gateway Audio.

(** The countdown effect: while a countdown is shown and has not reached
    zero, it arms a timer of one second that dispatches
    [DECREMENT_COUNTDOWN], and it disarms it when the countdown changes. *)
Definition timer_armed (s : MockInterviewState) : bool :=
  match countdown s with
  | Some c => negb (c =? 0)%Z
  | None => false
  end.

(** What the component can dispatch in a session over the questions it
    was given: the guards of [can_dispatch], the countdown timer only
    while it is armed, and [NEXT_QUESTION] with the component's own list
    ([handleNext]). *)
Definition session_guard (questions : list InterviewQuestion) (s : MockInterviewState)
    (a : MockInterviewAction) : Prop :=
  match a with
  | DECREMENT_COUNTDOWN => timer_armed s = true
  | NEXT_QUESTION questions' => questions' = questions
  | _ => True
  end.

Inductive session_reachable (questions : list InterviewQuestion)
  : MockInterviewState -> Prop :=
| session_initial : session_reachable questions initialState
| session_dispatch s a :
    session_reachable questions s ->
    can_dispatch s a = true ->
    session_guard questions s a ->
    session_reachable questions (mockInterviewReducer s a).

(** What reading a question aloud does, in order. *)
Inductive narration : Type :=
| Dispatched (action : MockInterviewAction)
| Synthesized (text : string)
| Played (buffer : AudioBuffer).

(** [speakQuestion], up to the end of the playback it starts:
    [context_open] tells whether the output context exists, and the
    [onended] callback of the source is the last dispatch. *)
Definition speakQuestion `{B : Base64} `{C : AudioContext} (question : string)
    (outcome : speech_outcome) (context_open : bool) : list narration :=
  Dispatched PLAY_QUESTION_AUDIO :: Synthesized question ::
  match (audioData ← textToSpeech outcome;
         if negb (is_empty audioData) && context_open then
           bytes ← decode audioData;
           audioBuffer ← decodeAudioData bytes 24000 1;
           Return (Some audioBuffer)
         else Return None) with
  | Return (Some audioBuffer) => [Played audioBuffer; Dispatched FINISH_QUESTION_AUDIO]
  | Return None => [Dispatched FINISH_QUESTION_AUDIO]
  | Throw e => [Dispatched FINISH_QUESTION_AUDIO]
  | Pending => []
  end.

Definition dispatched (t : list narration) : list MockInterviewAction :=
  omap (fun n => match n with Dispatched a => Some a | _ => None end) t.

(** The URLs that [handleClose] revokes: those of the answers whose
    [userAudioUrl] is truthy. The code revokes them in the order in which
    the answers were first stored; the map of the model keeps no such
    order and lists them by index, so only which URLs are revoked is
    meant, not in which order. *)
Definition stored_urls (answers : gmap Z AnswerFeedback) : list string :=
  omap (fun entry : Z * AnswerFeedback =>
          match userAudioUrl (snd entry) with
          | Some url => if is_empty url then None else Some url
          | None => None
          end)
       (map_to_list answers).

(** [handleClose], as far as it touches the recorded clips; pausing the
    player and the call of [onClose] are left out. *)
Definition handleClose (state : MockInterviewState) : list event :=
  RevokeObjectURL <$> stored_urls (answers state).

(** The object URLs that are live after the events of a trace. *)
Definition url_step (live : gset string) (e : event) : gset string :=
  match e with
  | CreateObjectURL _ url => {[url]} ∪ live
  | RevokeObjectURL url => live ∖ {[url]}
  | _ => live
  end.

Definition urls_after (live : gset string) (t : list event) : gset string :=
  foldl url_step live t.

(** How the callback ends: with one last dispatch that stores an answer
    carrying the new URL or reports an error, or, after a failed read of
    the clip, with no dispatch at all. *)
Definition stop_ending (url : string) (ending : list event) : Prop :=
  (exists answer,
     ending = [Dispatch (FINISH_PROCESSING answer)] /\ userAudioUrl answer = Some url)
  \/ (exists message, ending = [Dispatch (PROCESSING_ERROR message)])
  \/ ending = [].

(** The calls to the gateway in a trace, in order. *)
Definition is_gateway_call (e : event) : bool :=
  match e with
  | TranscribeAudio _ | GenerateAnswerFeedback _ _ _ => true
  | _ => false
  end.

End Session.

(** ** The callers of the gateway ([App.tsx]) *)

Module App.
Import JS Service Gateway.

(** The decimal digits at the head of a text, as a number, with their
    count and the rest of the text. *)
Fixpoint digits_value (s : string) (acc : Z) (count : Z) : Z * Z * string :=
  match s with
  | String c r =>
      if Nat.leb 48 (code c) && Nat.leb (code c) 57
      then digits_value r (10 * acc + Z.of_nat (code c - 48)) (count + 1)
      else (acc, count, s)
  | EmptyString => (acc, count, s)
  end.

(** A number lexeme [-int.frac e exp] as the pair [(m, e)] with
    [|value| = m * 10 ^ e]. *)
Definition decimal (lexeme : string) : Z * Z :=
  let unsigned := match lexeme with
                  | String c r => if char_is 45 c then r else lexeme
                  | EmptyString => lexeme
                  end in
  let '(int, _, rest) := digits_value unsigned 0 0 in
  let '(m, scale, rest) :=
    match rest with
    | String c r => if char_is 46 c then digits_value r int 0 else (int, 0, rest)
    | EmptyString => (int, 0, rest)
    end in
  let exponent :=
    match rest with
    | String c r =>
        if char_is 101 c || char_is 69 c then
          match r with
          | String sign r' =>
              if char_is 45 sign then - fst (fst (digits_value r' 0 0))
              else if char_is 43 sign then fst (fst (digits_value r' 0 0))
              else fst (fst (digits_value r 0 0))
          | EmptyString => 0
          end
        else 0
    | EmptyString => 0
    end in
  (m, exponent - scale).

(** Whether the number that a lexeme denotes is zero as a double: its
    digits are all zero, or its magnitude is at most [2 ^ -1075], half
    the least positive double, and rounds to zero. *)
Definition denotes_zero (lexeme : string) : bool :=
  let '(m, e) := decimal lexeme in
  (m =? 0)%Z || ((e <? 0)%Z && (m * 2 ^ 1075 <=? 10 ^ (- e))%Z).

(** [if (p)] for a property that was read. *)
Definition truthy (p : option json) : bool :=
  match p with
  | None | Some JNull => false
  | Some (JBool b) => b
  | Some (JNum lexeme) => negb (denotes_zero lexeme)
  | Some (JStr s) => negb (is_empty s)
  | Some (JArr _) | Some (JObj _) => true
  end.

(** The state of the component that the three handlers read or set. The
    company name is what the form or a generation put there; the message
    of an alert or of a warning is a string or whatever was read from the
    verdict. *)
Record State : Type := {
  isLoading : bool;
  error : option string;
  loadingMessage : string;
  jobRole : string;
  jobDescription : string;
  companyName : json;
  experienceLevel : string;
  interviewPrepData : option json;
  alertInfo : option (string * option json);
  validationWarning : option (option json);
  technicalSolution : option json;
  solutionLanguage : string;
  isExplanationOpen : bool
}.

Definition setIsLoading (v : bool) (s : State) : State :=
  {| isLoading := v; error := error s; loadingMessage := loadingMessage s;
     jobRole := jobRole s; jobDescription := jobDescription s;
     companyName := companyName s; experienceLevel := experienceLevel s;
     interviewPrepData := interviewPrepData s; alertInfo := alertInfo s;
     validationWarning := validationWarning s; technicalSolution := technicalSolution s;
     solutionLanguage := solutionLanguage s; isExplanationOpen := isExplanationOpen s |}.

Definition setError (v : option string) (s : State) : State :=
  {| isLoading := isLoading s; error := v; loadingMessage := loadingMessage s;
     jobRole := jobRole s; jobDescription := jobDescription s;
     companyName := companyName s; experienceLevel := experienceLevel s;
     interviewPrepData := interviewPrepData s; alertInfo := alertInfo s;
     validationWarning := validationWarning s; technicalSolution := technicalSolution s;
     solutionLanguage := solutionLanguage s; isExplanationOpen := isExplanationOpen s |}.

Definition setLoadingMessage (v : string) (s : State) : State :=
  {| isLoading := isLoading s; error := error s; loadingMessage := v;
     jobRole := jobRole s; jobDescription := jobDescription s;
     companyName := companyName s; experienceLevel := experienceLevel s;
     interviewPrepData := interviewPrepData s; alertInfo := alertInfo s;
     validationWarning := validationWarning s; technicalSolution := technicalSolution s;
     solutionLanguage := solutionLanguage s; isExplanationOpen := isExplanationOpen s |}.

Definition setCompanyName (v : json) (s : State) : State :=
  {| isLoading := isLoading s; error := error s; loadingMessage := loadingMessage s;
     jobRole := jobRole s; jobDescription := jobDescription s;
     companyName := v; experienceLevel := experienceLevel s;
     interviewPrepData := interviewPrepData s; alertInfo := alertInfo s;
     validationWarning := validationWarning s; technicalSolution := technicalSolution s;
     solutionLanguage := solutionLanguage s; isExplanationOpen := isExplanationOpen s |}.

Definition setInterviewPrepData (v : option json) (s : State) : State :=
  {| isLoading := isLoading s; error := error s; loadingMessage := loadingMessage s;
     jobRole := jobRole s; jobDescription := jobDescription s;
     companyName := companyName s; experienceLevel := experienceLevel s;
     interviewPrepData := v; alertInfo := alertInfo s;
     validationWarning := validationWarning s; technicalSolution := technicalSolution s;
     solutionLanguage := solutionLanguage s; isExplanationOpen := isExplanationOpen s |}.

Definition setAlertInfo (v : option (string * option json)) (s : State) : State :=
  {| isLoading := isLoading s; error := error s; loadingMessage := loadingMessage s;
     jobRole := jobRole s; jobDescription := jobDescription s;
     companyName := companyName s; experienceLevel := experienceLevel s;
     interviewPrepData := interviewPrepData s; alertInfo := v;
     validationWarning := validationWarning s; technicalSolution := technicalSolution s;
     solutionLanguage := solutionLanguage s; isExplanationOpen := isExplanationOpen s |}.

Definition setValidationWarning (v : option (option json)) (s : State) : State :=
  {| isLoading := isLoading s; error := error s; loadingMessage := loadingMessage s;
     jobRole := jobRole s; jobDescription := jobDescription s;
     companyName := companyName s; experienceLevel := experienceLevel s;
     interviewPrepData := interviewPrepData s; alertInfo := alertInfo s;
     validationWarning := v; technicalSolution := technicalSolution s;
     solutionLanguage := solutionLanguage s; isExplanationOpen := isExplanationOpen s |}.

Definition setTechnicalSolution (v : option json) (s : State) : State :=
  {| isLoading := isLoading s; error := error s; loadingMessage := loadingMessage s;
     jobRole := jobRole s; jobDescription := jobDescription s;
     companyName := companyName s; experienceLevel := experienceLevel s;
     interviewPrepData := interviewPrepData s; alertInfo := alertInfo s;
     validationWarning := validationWarning s; technicalSolution := v;
     solutionLanguage := solutionLanguage s; isExplanationOpen := isExplanationOpen s |}.

Definition setSolutionLanguage (v : string) (s : State) : State :=
  {| isLoading := isLoading s; error := error s; loadingMessage := loadingMessage s;
     jobRole := jobRole s; jobDescription := jobDescription s;
     companyName := companyName s; experienceLevel := experienceLevel s;
     interviewPrepData := interviewPrepData s; alertInfo := alertInfo s;
     validationWarning := validationWarning s; technicalSolution := technicalSolution s;
     solutionLanguage := v; isExplanationOpen := isExplanationOpen s |}.

Definition setIsExplanationOpen (v : bool) (s : State) : State :=
  {| isLoading := isLoading s; error := error s; loadingMessage := loadingMessage s;
     jobRole := jobRole s; jobDescription := jobDescription s;
     companyName := companyName s; experienceLevel := experienceLevel s;
     interviewPrepData := interviewPrepData s; alertInfo := alertInfo s;
     validationWarning := validationWarning s; technicalSolution := technicalSolution s;
     solutionLanguage := solutionLanguage s; isExplanationOpen := v |}.

(** The calls a handler makes to the functions of the gateway, in
    order. *)
Inductive call : Type :=
| ValidateJobInput (jobRole jobDescription : string)
| GenerateInterviewQuestions (jobRole jobDescription experienceLevel companyName : string)
| GenerateTechnicalSolution (problem language level : string) (file : bool).

Section WithRuntime.
Context `{R : Runtime}.

(** [err.message || 'An unknown error occurred.']. *)
Definition error_or_unknown (err : exn) : string :=
  if is_empty (message err) then "An unknown error occurred." else message err.

(** The [catch] and [finally] blocks shared by the two generations; they
    run once the awaited call has settled. *)
Definition failed (title : string) (err : exn) (s : State) : State :=
  setAlertInfo (Some (title, Some (JStr (message err))))
    (setError (Some (error_or_unknown err)) s).

Definition settled (s : State) : State :=
  setLoadingMessage EmptyString (setIsLoading false s).

Definition proceedWithGeneration (generation : gateway_response)
    (role description level company : string) (s : State) : list call * State :=
  let s := setLoadingMessage "Crafting your prep plan..."
             (setInterviewPrepData None (setError None (setIsLoading true s))) in
  let s :=
    match generateInterviewQuestions generation with
    | Return results =>
        let s := setInterviewPrepData (Some results) s in
        match get results "companyName" with
        | Return name =>
            settled match name with
                    | Some v => if truthy name then setCompanyName v s else s
                    | None => s
                    end
        | Throw err => settled (failed "Generation Failed" err s)
        | Pending => s
        end
    | Throw err => settled (failed "Generation Failed" err s)
    | Pending => s
    end in
  ([GenerateInterviewQuestions role description level company], s).

(** [validation.status === status]. *)
Definition status_is (validation : json) (status : string) : bool :=
  match field validation "status" with
  | Some (JStr s) => String.eqb s status
  | _ => false
  end.

(** [handleGenerateQuestions]. Trimming a company name that is not a
    string is a [TypeError] that nothing catches. *)
Definition handleGenerateQuestions (validation_response generation : gateway_response)
    (s : State) : result (list call * State) :=
  let trimmedRole := trim (jobRole s) in
  let trimmedDescription := trim (jobDescription s) in
  trimmedCompany ← match companyName s with
                   | JStr name => Return (trim name)
                   | _ => Throw TypeError
                   end;
  if is_empty trimmedRole || is_empty trimmedDescription then
    Return ([], setAlertInfo
                  (Some ("Input Required",
                         Some (JStr "Please provide both a Job Role and a Job Description.")))
                  s)
  else
    let s := setLoadingMessage "Validating input..."
               (setInterviewPrepData None (setError None (setIsLoading true s))) in
    validation ← validateJobInput validation_response;
    let asked := ValidateJobInput trimmedRole trimmedDescription in
    if status_is validation "invalid" then
      Return ([asked],
              setIsLoading false
                (setAlertInfo (Some ("Invalid Input", field validation "reason")) s))
    else if status_is validation "improvable" then
      Return ([asked],
              setIsLoading false
                (setValidationWarning (Some (field validation "reason")) s))
    else
      let '(calls, s) :=
        proceedWithGeneration generation trimmedRole trimmedDescription
          (experienceLevel s) trimmedCompany s in
      Return (asked :: calls, s).

(** [handleGenerateSolution]: the state in which the handler leaves the
    component. When the read of the file never ends, neither the [catch]
    nor the [finally] block runs. *)
Definition handleGenerateSolution (solution : gateway_response)
    (problem language : string) (file : option File) (level : string) (s : State)
  : list call * State :=
  let s := setTechnicalSolution None
             (setError None (setLoadingMessage "Solving your problem..."
                               (setIsLoading true s))) in
  let s :=
    match generateTechnicalSolution file solution with
    | Return result =>
        settled (setIsExplanationOpen true
                   (setSolutionLanguage language (setTechnicalSolution (Some result) s)))
    | Throw err => settled (failed "Solution Failed" err s)
    | Pending => s
    end in
  ([GenerateTechnicalSolution problem language level (bool_decide (is_Some file))], s).

End WithRuntime.

Definition is_generation (c : call) : bool :=
  match c with GenerateInterviewQuestions _ _ _ _ => true | _ => false end.

End App.

(** ** More samples *)

Module Scenario2.
Import JS Service Interview Gateway Audio Session.

(** The speech response whose first part carries [audio]. *)
Definition spoken (audio : string) : SpeechResponse :=
  {| candidates :=
       Some [ {| content :=
                   Some {| parts := Some [ {| inlineData := Some {| data := Some audio |} |} ] |} |} ] |}.

(** A form filled in for a backend role. *)
Definition form : App.State := {|
  App.isLoading := false;
  App.error := None;
  App.loadingMessage := EmptyString;
  App.jobRole := " Backend Developer ";
  App.jobDescription := "Builds and tests services.";
  App.companyName := JStr EmptyString;
  App.experienceLevel := "1-3 Years";
  App.interviewPrepData := None;
  App.alertInfo := None;
  App.validationWarning := None;
  App.technicalSolution := None;
  App.solutionLanguage := EmptyString;
  App.isExplanationOpen := false
|}.

(** A feedback with its five required fields and no follow-up. *)
Definition feedback_text : string :=
  "{" ++ Samples.quoted "clarity" ++ ":4,"
      ++ Samples.quoted "structure" ++ ":3,"
      ++ Samples.quoted "relevance" ++ ":5,"
      ++ Samples.quoted "overallImpression" ++ ":" ++ Samples.quoted "Clear." ++ ","
      ++ Samples.quoted "improvementPoints" ++ ":[" ++ Samples.quoted "Use numbers." ++ "]}".

End Scenario2.

(** * Properties *)

Import JS Service Interview.

(** ** The reference runtime *)

Lemma startsWith_cons (s : string) (c : ascii) :
  startsWith s (String c EmptyString) = true ->
  exists r, s = String c r.
Proof.
  unfold startsWith. destruct s as [|b r]; simpl; [discriminate|].
  destruct (Ascii.ascii_dec c b) as [->|]; [|discriminate].
  intros _. now exists r.
Qed.

Lemma fuel_positive (s : string) :
  exists fuel, (2 * String.length s + 2)%nat = S fuel.
Proof. exists (2 * String.length s + 1)%nat. lia. Qed.

Lemma reference_respects_delimiter : parse_respects_delimiter JSONText.reference.
Proof.
  intros s v Hparse Hdelim. simpl in Hparse. unfold JSONText.parse in Hparse.
  apply orb_true_iff in Hdelim as [H|H]; apply startsWith_cons in H as [r ->].
  - destruct (fuel_positive (String "{" r)) as [fuel Hfuel].
    rewrite Hfuel in Hparse. simpl in Hparse.
    destruct (JSONText.skip_ws r) as [|c' r']; [discriminate|].
    destruct (char_is 125 c').
    + destruct (is_empty _); now simplify_eq.
    + destruct (JSONText.members _ r) as [[ms rest]|]; simpl in Hparse; [|discriminate].
      destruct (is_empty _); now simplify_eq.
  - destruct (fuel_positive (String "[" r)) as [fuel Hfuel].
    rewrite Hfuel in Hparse. simpl in Hparse.
    destruct (JSONText.skip_ws r) as [|c' r']; [discriminate|].
    destruct (char_is 93 c').
    + destruct (is_empty _); now simplify_eq.
    + destruct (JSONText.elements _ r) as [[vs rest]|]; simpl in Hparse; [|discriminate].
      destruct (is_empty _); now simplify_eq.
Qed.

(** ** The model on sample inputs *)

Example trim_strips_both_ends :
  trim (String (ascii_of_nat 10) "  {} " ++ String (ascii_of_nat 9) EmptyString) = "{}".
Proof. reflexivity. Qed.

Example trim_of_blank : trim (String (ascii_of_nat 160) "   ") = EmptyString.
Proof. reflexivity. Qed.

Example parse_array :
  JSONText.parse " [1, -2.5e+3, true, null] "
  = Some (JArr [JNum "1"; JNum "-2.5e+3"; JBool true; JNull]).
Proof. reflexivity. Qed.

Example parse_trailing_comma : JSONText.parse "[1,]" = None.
Proof. reflexivity. Qed.

Example parse_package :
  JSONText.parse Samples.package_with_lone_null
  = Some Samples.package_with_lone_null_parsed.
Proof. reflexivity. Qed.

Example later_member_wins :
  get (JObj [("code", JStr "a"); ("code", JNull)]) "code" = Return (Some JNull).
Proof. reflexivity. Qed.

Example empty_object_has_no_required_key :
  parseAndValidateJSON (R := JSONText.reference) (Some " {} ") ["code"]
  = Throw FormatError.
Proof. reflexivity. Qed.

Example followUpQuestion_is_optional :
  parseAndValidateJSON (R := JSONText.reference) (Some " {} ") ["followUpQuestion"]
  = Return (JObj []).
Proof. reflexivity. Qed.

Example null_text_is_not_delimited :
  parseAndValidateJSON (R := JSONText.reference) (Some "null") []
  = Throw FormatError.
Proof. reflexivity. Qed.

Example silent_clip_events :
  handleStopRecording (R := JSONText.reference)
    (Scenario.outside (Resolved (Some "unused")) (Resolved None))
    (Some recording) Scenario.answered Scenario.questions "Backend Developer"
    Scenario.silent_clip
  = [Dispatch STOP_RECORDING;
     Dispatch START_PROCESSING;
     RevokeObjectURL "blob:answer-1";
     CreateObjectURL (new_Blob Scenario.silent_clip) "blob:answer-2";
     Dispatch (FINISH_PROCESSING (no_audio_answer "blob:answer-2"))].
Proof. reflexivity. Qed.

Example idle_recorder_ignores_stop :
  handleStopRecording (R := JSONText.reference)
    (Scenario.outside (Resolved (Some "unused")) (Resolved None))
    (Some inactive) Scenario.answered Scenario.questions "Backend Developer"
    Scenario.silent_clip
  = [].
Proof. reflexivity. Qed.

Example countdown_runs_down :
  countdown (reduce_all initialState
               [START_COUNTDOWN; DECREMENT_COUNTDOWN; DECREMENT_COUNTDOWN;
                DECREMENT_COUNTDOWN])
  = Some 0.
Proof. reflexivity. Qed.

(** ** The response contract layer *)

Section ContractLayer.
Context `{R : Runtime}.

Lemma is_empty_true (s : string) : is_empty s = true <-> s = EmptyString.
Proof. destruct s; simpl; split; congruence. Qed.

Lemma get_structured (v : json) (k : string) :
  is_structured v = true -> exists p, get v k = Return p.
Proof.
  destruct v; try discriminate; intros _; simpl.
  - destruct (String.eqb k "length"); eauto.
  - eauto.
Qed.

Lemma is_undefined_structured (v : json) (k : string) :
  is_structured v = true -> exists u, is_undefined v k = Return u.
Proof.
  intros Hv. unfold is_undefined.
  destruct (get_structured v k Hv) as [p ->]. simpl. eauto.
Qed.

(** At a name that the prototype chain does not define, a key is present
    exactly when the value has an own property of that name. *)
Lemma present_own (v : json) (k : string) :
  inherited v k = false ->
  (present v k <-> exists p, get v k = Return (Some p)).
Proof.
  intros Hk. unfold present, is_undefined.
  destruct (get v k) as [[p|]|e|]; simpl; rewrite ?Hk; simpl; split;
    try (intros [q Hq]); try congruence; eauto.
Qed.

Lemma absent_own (v : json) (k : string) :
  inherited v k = false -> (absent v k <-> get v k = Return None).
Proof.
  intros Hk. unfold absent, is_undefined.
  destruct (get v k) as [[p|]|e|]; simpl; rewrite ?Hk; simpl; split; congruence.
Qed.

(** On an object or an array a key reads a value exactly when it does not
    read [undefined]. *)
Lemma present_not_absent (v : json) (k : string) :
  is_structured v = true -> (present v k <-> ~ absent v k).
Proof.
  intros Hv. destruct (is_undefined_structured v k Hv) as [u Hu].
  unfold present, absent. rewrite Hu. destruct u; split; congruence.
Qed.

(** The key loop returns exactly when every key reads a value or is the
    exempt key and reads [undefined]. *)
Lemma check_keys_Return (parsedData : json) (schemaKeys : list string) :
  check_keys parsedData schemaKeys = Return tt <->
  forall key, In key schemaKeys ->
    present parsedData key \/ (key = "followUpQuestion" /\ absent parsedData key).
Proof.
  unfold present, absent.
  induction schemaKeys as [|key rest IH]; simpl.
  - split; [intros _ key [] | reflexivity].
  - destruct (is_undefined parsedData key) as [[|]|e|] eqn:Hget; simpl.
    + destruct (String.eqb key "followUpQuestion") eqn:Hkey.
      * apply String.eqb_eq in Hkey. rewrite IH. split.
        -- intros H k [<-|Hk]; [right; auto | auto].
        -- intros H k Hk. apply H. now right.
      * apply String.eqb_neq in Hkey. split; [discriminate|].
        intros H. destruct (H key (or_introl eq_refl)) as [Hp|[Hk _]]; congruence.
    + rewrite IH. split.
      * intros H k [<-|Hk]; [left; auto | auto].
      * intros H k Hk. apply H. now right.
    + split; [discriminate|].
      intros H. destruct (H key (or_introl eq_refl)) as [Hp|[_ Hp]]; congruence.
    + split; [discriminate|].
      intros H. destruct (H key (or_introl eq_refl)) as [Hp|[_ Hp]]; congruence.
Qed.

(** The key loop never stays pending. *)
Lemma check_keys_settles (parsedData : json) (schemaKeys : list string) :
  check_keys parsedData schemaKeys <> Pending.
Proof.
  induction schemaKeys as [|key rest IH]; simpl; [discriminate|].
  unfold is_undefined.
  destruct (get parsedData key) as [p|e|] eqn:Hget; simpl; try discriminate.
  - destruct p; simpl; [exact IH|].
    destruct (negb _); [|exact IH].
    destruct (String.eqb _ _); [exact IH | discriminate].
  - destruct parsedData; simpl in Hget; try discriminate;
      destruct (String.eqb key "length"); discriminate.
Qed.

(** On an object or an array the key loop throws only for a key, other
    than the exempt one, that reads [undefined]. *)
Lemma check_keys_Throw (parsedData : json) (schemaKeys : list string) (e : exn) :
  is_structured parsedData = true ->
  check_keys parsedData schemaKeys = Throw e ->
  exists key, In key schemaKeys /\ key <> "followUpQuestion" /\ absent parsedData key.
Proof.
  intros Hv. unfold absent.
  induction schemaKeys as [|key rest IH]; simpl; [discriminate|].
  destruct (is_undefined_structured parsedData key Hv) as [u Hu]. rewrite Hu. simpl.
  destruct u.
  - destruct (String.eqb key "followUpQuestion") eqn:Hkey.
    + intros H. destruct (IH H) as (k & Hk & Hne & Habs). exists k. auto.
    + apply String.eqb_neq in Hkey. intros _. exists key. auto.
  - intros H. destruct (IH H) as (k & Hk & Hne & Habs). exists k. auto.
Qed.

(** [parseAndValidateJSON] on a text, with its [try]/[catch] resolved. *)
Lemma parseAndValidateJSON_unfold (responseText : string) (schemaKeys : list string) :
  parseAndValidateJSON (Some responseText) schemaKeys =
  let jsonText := trim responseText in
  if is_empty jsonText
     || negb (startsWith jsonText "{") && negb (startsWith jsonText "[")
  then Throw FormatError
  else match JSON_parse jsonText with
       | None => Throw FormatError
       | Some parsedData =>
           match check_keys parsedData schemaKeys with
           | Return _ => Return parsedData
           | _ => Throw FormatError
           end
       end.
Proof.
  unfold parseAndValidateJSON, parse_json. simpl.
  destruct (is_empty _ || _); [reflexivity|].
  destruct (JSON_parse _) as [parsedData|]; simpl; [|reflexivity].
  pose proof (check_keys_settles parsedData schemaKeys).
  destruct (check_keys parsedData schemaKeys); [reflexivity | reflexivity | congruence].
Qed.

Lemma parseAndValidateJSON_undefined (schemaKeys : list string) :
  parseAndValidateJSON None schemaKeys = Throw FormatError.
Proof. reflexivity. Qed.

(** Whatever [parseAndValidateJSON] throws is the format error. *)
Lemma parseAndValidateJSON_Throw (responseText : option string) (schemaKeys : list string)
    (e : exn) :
  parseAndValidateJSON responseText schemaKeys = Throw e -> e = FormatError.
Proof.
  unfold parseAndValidateJSON, try_catch.
  destruct (_ ≫= _); intros H; now simplify_eq.
Qed.

(** When [parseAndValidateJSON] returns: the trimmed text is delimited, it
    parses to the value returned, and the key loop went through. *)
Lemma parseAndValidateJSON_Return (responseText : option string)
    (schemaKeys : list string) (r : json) :
  parseAndValidateJSON responseText schemaKeys = Return r <->
  exists text,
    responseText = Some text
    /\ trim text <> EmptyString
    /\ (startsWith (trim text) "{" = true \/ startsWith (trim text) "[" = true)
    /\ JSON_parse (trim text) = Some r
    /\ check_keys r schemaKeys = Return tt.
Proof.
  destruct responseText as [text|].
  2: { rewrite parseAndValidateJSON_undefined.
       split; [discriminate | intros (text & H & _); discriminate]. }
  rewrite parseAndValidateJSON_unfold. cbv zeta.
  destruct (is_empty (trim text)) eqn:Hempty; simpl.
  { apply is_empty_true in Hempty.
    split; [discriminate | intros (t & Ht & Hne & _); congruence]. }
  assert (trim text <> EmptyString) as Hne.
  { intros H. apply is_empty_true in H. congruence. }
  destruct (negb (startsWith (trim text) "{") && negb (startsWith (trim text) "["))
    eqn:Hdelim.
  { apply andb_true_iff in Hdelim as [Hbrace Hbracket].
    apply negb_true_iff in Hbrace, Hbracket.
    split; [discriminate|].
    intros (t & Ht & _ & [H|H] & _); congruence. }
  assert (startsWith (trim text) "{" = true \/ startsWith (trim text) "[" = true)
    as Hopen.
  { destruct (startsWith (trim text) "{"); [auto|].
    destruct (startsWith (trim text) "["); [auto | discriminate]. }
  destruct (JSON_parse (trim text)) as [parsedData|] eqn:Hparse.
  2: { split; [discriminate | intros (t & Ht & _ & _ & H & _); congruence]. }
  destruct (check_keys parsedData schemaKeys) as [[]|e|] eqn:Hkeys.
  - split.
    + intros H. injection H as <-. exists text. auto 6.
    + intros (t & Ht & _ & _ & H & _). congruence.
  - split; [discriminate|].
    intros (t & Ht & _ & _ & H & Hk). congruence.
  - split; [discriminate|].
    intros (t & Ht & _ & _ & H & Hk). congruence.
Qed.

(** [parseAndValidateJSON] awaits nothing: it returns or throws. *)
Lemma parseAndValidateJSON_settles (responseText : option string)
    (schemaKeys : list string) :
  parseAndValidateJSON responseText schemaKeys <> Pending.
Proof.
  destruct responseText as [text|]; [|discriminate].
  rewrite parseAndValidateJSON_unfold. cbv zeta.
  destruct (_ || _); [discriminate|].
  destruct (JSON_parse _); [|discriminate].
  destruct (check_keys _ _); discriminate.
Qed.

End ContractLayer.

(** C1. [parseAndValidateJSON] fails with the format error exactly when the
    trimmed text is empty, or opens with neither a brace nor a bracket, or
    does not parse, or some key of the list other than [followUpQuestion]
    reads [undefined] in the parsed value; otherwise it returns the parsed
    value. *)
Theorem parseAndValidateJSON_fails_exactly_when `{R : Runtime}
    (responseText : string) (schemaKeys : list string) :
  parse_respects_delimiter R ->
  let jsonText := trim responseText in
  let outcome := parseAndValidateJSON (Some responseText) schemaKeys in
  (outcome = Throw FormatError <->
     jsonText = EmptyString
     \/ (startsWith jsonText "{" = false /\ startsWith jsonText "[" = false)
     \/ JSON_parse jsonText = None
     \/ exists parsedData key,
          JSON_parse jsonText = Some parsedData /\ In key schemaKeys
          /\ key <> "followUpQuestion" /\ absent parsedData key)
  /\ (outcome <> Throw FormatError ->
      exists parsedData,
        JSON_parse jsonText = Some parsedData /\ outcome = Return parsedData).
Proof.
  intros HR jsonText outcome. subst outcome.
  pose proof (parseAndValidateJSON_settles (Some responseText) schemaKeys) as Hsettles.
  destruct (parseAndValidateJSON (Some responseText) schemaKeys) as [r|e|] eqn:Hout;
    [| |congruence].
  - (* it returns: none of the four conditions holds *)
    apply parseAndValidateJSON_Return in Hout as (text & Htext & Hne & Hdelim & Hparse & Hkeys).
    injection Htext as <-. fold jsonText in Hne, Hdelim, Hparse.
    split; [|intros _; eauto].
    split; [discriminate|].
    intros [H|[[H1 H2]|[H|(v & key & Hv & Hin & Hkey & Habs)]]].
    + contradiction.
    + destruct Hdelim; congruence.
    + congruence.
    + assert (v = r) as -> by congruence.
      destruct (proj1 (check_keys_Return _ _) Hkeys key Hin) as [Hp|[Hk _]];
        [unfold present, absent in *; congruence | contradiction].
  - (* it throws: the error is the format error and one condition holds *)
    apply parseAndValidateJSON_Throw in Hout as Hfmt. subst e.
    split; [|congruence]. split; [intros _ | reflexivity].
    destruct (string_dec jsonText EmptyString) as [Hempty|Hne]; [auto|]. right.
    destruct (startsWith jsonText "{" || startsWith jsonText "[") eqn:Hdelim.
    2: { apply orb_false_iff in Hdelim. auto. }
    right.
    destruct (JSON_parse jsonText) as [v|] eqn:Hparse; [|auto]. right.
    pose proof (HR jsonText v Hparse Hdelim) as Hv.
    pose proof (check_keys_settles v schemaKeys) as Hloop.
    destruct (check_keys v schemaKeys) as [[]|e|] eqn:Hkeys; [| |congruence].
    + assert (parseAndValidateJSON (Some responseText) schemaKeys = Return v) as Hret.
      { apply parseAndValidateJSON_Return. exists responseText.
        apply orb_true_iff in Hdelim. auto 6. }
      congruence.
    + destruct (check_keys_Throw _ _ _ Hv Hkeys) as (key & Hin & Hkey & Habs).
      exists v, key. auto.
Qed.

Lemma parseAndValidateJSON_fails_exactly_when_witness :
  parse_respects_delimiter JSONText.reference
  /\ parseAndValidateJSON (R := JSONText.reference)
       (Some Samples.solution_without_explanation) ["explanation"; "code"]
     = Throw FormatError.
Proof.
  split; [exact reference_respects_delimiter|].
  apply (proj1 (parseAndValidateJSON_fails_exactly_when
                  (R := JSONText.reference)
                  Samples.solution_without_explanation ["explanation"; "code"]
                  reference_respects_delimiter)).
  right; right; right.
  exists (JObj [("code", JStr "return 1;")]), "explanation".
  split; [vm_compute; reflexivity|].
  split; [simpl; auto|].
  split; [discriminate | reflexivity].
Defined.

(** ** The gateway operations *)

Section Gateway.
Context `{R : Runtime}.

Lemma generateInterviewQuestions_unfold (response : gateway_response) :
  generateInterviewQuestions response =
  match response with
  | Resolved text =>
      match parseAndValidateJSON text ["questions"; "companyName"; "approachGuide"] with
      | Return r => Return r
      | _ => Throw GenerationError_questions
      end
  | Rejected _ => Throw GenerationError_questions
  end.
Proof.
  unfold generateInterviewQuestions. destruct response as [reason|text]; simpl;
    [reflexivity|].
  pose proof (parseAndValidateJSON_settles text ["questions"; "companyName"; "approachGuide"]).
  destruct (parseAndValidateJSON text _); [reflexivity | reflexivity | congruence].
Qed.

(** [transcribeAudio] stays pending exactly after a failed read of the
    clip; otherwise the exchange decides. *)
Lemma transcribeAudio_unfold (audioFile : File) (response : gateway_response) :
  transcribeAudio audioFile response =
  match dataURL audioFile with
  | None => Pending
  | Some _ =>
      match response with
      | Resolved (Some text) => Return (trim text)
      | _ => Throw GenerationError_transcription
      end
  end.
Proof.
  unfold transcribeAudio, fileToGenerativePart.
  destruct (dataURL audioFile); [|reflexivity].
  destruct response as [reason|[text|]]; reflexivity.
Qed.

Lemma transcribeAudio_Throw (audioFile : File) (response : gateway_response) (e : exn) :
  transcribeAudio audioFile response = Throw e -> e = GenerationError_transcription.
Proof.
  rewrite transcribeAudio_unfold.
  destruct (dataURL audioFile); [|discriminate].
  destruct response as [reason|[text|]]; intros H; now simplify_eq.
Qed.

Lemma generateAnswerFeedback_Throw (response : gateway_response) (e : exn) :
  generateAnswerFeedback response = Throw e -> e = GenerationError_feedback.
Proof.
  unfold generateAnswerFeedback, try_catch.
  destruct (_ ≫= _); intros H; now simplify_eq.
Qed.

(** [generateAnswerFeedback] awaits the exchange only: it returns or
    throws. *)
Lemma generateAnswerFeedback_settles (response : gateway_response) :
  generateAnswerFeedback response <> Pending.
Proof.
  unfold generateAnswerFeedback. destruct response as [reason|text]; simpl;
    [discriminate|].
  pose proof (parseAndValidateJSON_settles text
                ["clarity"; "structure"; "relevance"; "overallImpression";
                 "improvementPoints"; "followUpQuestion"]).
  destruct (parseAndValidateJSON text _); simpl; congruence.
Qed.

Lemma validateJobInput_unfold (response : gateway_response) :
  validateJobInput response =
  match response with
  | Resolved (Some text) =>
      match JSON_parse (trim text) with
      | Some parsed => Return (if is_verdict parsed then parsed else fallback_validation)
      | None => Return fallback_validation
      end
  | _ => Return fallback_validation
  end.
Proof.
  unfold validateJobInput, parse_json, is_verdict, field.
  destruct response as [reason|[text|]]; simpl; try reflexivity.
  destruct (JSON_parse (trim text)) as [parsed|]; simpl; [|reflexivity].
  assert (forall k, get parsed k <> Pending) as Hget.
  { intros k. destruct parsed; simpl; try discriminate;
      destruct (String.eqb k "length"); discriminate. }
  pose proof (Hget "status") as Hs. pose proof (Hget "reason") as Hr.
  destruct (get parsed "status") as [status|e|] eqn:Hstatus; simpl;
    [|reflexivity|congruence].
  destruct (is_status status); simpl; [|reflexivity].
  destruct (get parsed "reason") as [reason|e|]; simpl; [|reflexivity|congruence].
  destruct (is_string reason); reflexivity.
Qed.

End Gateway.

(** C2, as the code has it. What [generateInterviewQuestions] returns is
    the parsed response, and it returns it exactly when the exchange
    resolved with a text that is delimited, parses and has the three keys
    [questions], [companyName] and [approachGuide] present, each possibly
    [null]; every other outcome is the generation error. Nothing compares
    the two fields: a response with exactly one of them [null] is
    returned. *)
Theorem generateInterviewQuestions_checks_presence_only `{R : Runtime}
    (response : gateway_response) :
  (forall r,
     generateInterviewQuestions response = Return r <->
     exists text,
       response = Resolved (Some text)
       /\ trim text <> EmptyString
       /\ (startsWith (trim text) "{" = true \/ startsWith (trim text) "[" = true)
       /\ JSON_parse (trim text) = Some r
       /\ present r "questions" /\ present r "companyName" /\ present r "approachGuide")
  /\ (forall e, generateInterviewQuestions response = Throw e ->
                e = GenerationError_questions).
Proof.
  rewrite generateInterviewQuestions_unfold. split.
  - intros r. destruct response as [reason|text].
    { split; [discriminate | intros (t & H & _); discriminate]. }
    pose proof (parseAndValidateJSON_settles text
                  ["questions"; "companyName"; "approachGuide"]) as Hsettles.
    destruct (parseAndValidateJSON text _) as [r'|e|] eqn:Hp; [| |congruence].
    + apply parseAndValidateJSON_Return in Hp as (t & -> & Hne & Hd & Hparse & Hkeys).
      pose proof (proj1 (check_keys_Return _ _) Hkeys) as Hall.
      assert (forall key, In key ["questions"; "companyName"; "approachGuide"] ->
                          present r' key) as Hpres.
      { intros key Hin. destruct (Hall key Hin) as [H|[-> _]]; [exact H|].
        simpl in Hin. intuition discriminate. }
      split.
      * intros H. simplify_eq. exists t. repeat split; auto; apply Hpres; simpl; auto.
      * intros (t' & Ht & _ & _ & Hparse' & _). simplify_eq. congruence.
    + split; [discriminate|].
      intros (t & Ht & Hne & Hd & Hparse & Hq & Hc & Ha). simplify_eq.
      assert (parseAndValidateJSON (Some t) ["questions"; "companyName"; "approachGuide"]
              = Return r) as Hret.
      { apply parseAndValidateJSON_Return. exists t. repeat split; auto.
        apply check_keys_Return. intros key [<-|[<-|[<-|[]]]]; auto. }
      congruence.
  - intros e. destruct response as [reason|text]; [intros H; now simplify_eq|].
    destruct (parseAndValidateJSON text _); intros H; now simplify_eq.
Qed.

Lemma generateInterviewQuestions_checks_presence_only_witness :
  generateInterviewQuestions (R := JSONText.reference)
    (Resolved (Some Samples.package_with_lone_null))
  = Return Samples.package_with_lone_null_parsed.
Proof.
  apply (proj1 (generateInterviewQuestions_checks_presence_only
                  (R := JSONText.reference)
                  (Resolved (Some Samples.package_with_lone_null)))).
  exists Samples.package_with_lone_null.
  split; [reflexivity|].
  split; [discriminate|].
  split; [left; reflexivity|].
  split; [vm_compute; reflexivity|].
  repeat split; reflexivity.
Defined.

(** C2, as the specification states it, fails: the package that names a
    company and has [null] for a guide is returned, with exactly one of
    the two fields [null]. *)
Lemma generateInterviewQuestions_returns_lone_null :
  generateInterviewQuestions (R := JSONText.reference)
    (Resolved (Some Samples.package_with_lone_null))
  = Return Samples.package_with_lone_null_parsed
  /\ is_null (companyName Samples.package_with_lone_null_parsed) = false
  /\ is_null (approachGuide Samples.package_with_lone_null_parsed) = true.
Proof. vm_compute. repeat split; reflexivity. Qed.

(** C3. [validateJobInput] never throws: whatever the exchange does, it
    returns; on a rejected exchange, a missing text or a text that does
    not parse it returns the fallback verdict, whose status is [valid],
    and on a parsed value it returns that value when it is a verdict and
    the fallback otherwise. *)
Theorem validateJobInput_never_throws `{R : Runtime} (response : gateway_response) :
  throws (validateJobInput response) = false
  /\ field fallback_validation "status" = Some (JStr "valid")
  /\ (forall reason, response = Rejected reason ->
        validateJobInput response = Return fallback_validation)
  /\ (response = Resolved None ->
        validateJobInput response = Return fallback_validation)
  /\ (forall text, response = Resolved (Some text) ->
        JSON_parse (trim text) = None ->
        validateJobInput response = Return fallback_validation)
  /\ (forall text parsed, response = Resolved (Some text) ->
        JSON_parse (trim text) = Some parsed ->
        validateJobInput response
        = Return (if is_verdict parsed then parsed else fallback_validation)).
Proof.
  rewrite validateJobInput_unfold. repeat split.
  - destruct response as [reason|[text|]]; try reflexivity.
    destruct (JSON_parse (trim text)); reflexivity.
  - intros reason ->. reflexivity.
  - intros ->. reflexivity.
  - intros text -> ->. reflexivity.
  - intros text parsed -> ->. reflexivity.
Qed.

Lemma validateJobInput_never_throws_witness :
  validateJobInput (R := JSONText.reference) (Rejected (Error "network down"))
  = Return fallback_validation
  /\ validateJobInput (R := JSONText.reference) (Resolved (Some "{ status: valid"))
     = Return fallback_validation.
Proof.
  split.
  - apply (proj1 (proj2 (proj2 (validateJobInput_never_throws
                           (R := JSONText.reference) (Rejected (Error "network down")))))
             (Error "network down") eq_refl).
  - apply (proj1 (proj2 (proj2 (proj2 (proj2 (validateJobInput_never_throws
                           (R := JSONText.reference)
                           (Resolved (Some "{ status: valid")))))))
             "{ status: valid" eq_refl).
    vm_compute. reflexivity.
Defined.

(** ** The stop-recording pipeline *)

Section Pipeline.
Context `{R : Runtime}.

Lemma trace_emit {A} (e : event) (k : Task A) : trace (emit e;; k) = e :: trace k.
Proof. unfold trace. destruct k as [t r]. reflexivity. Qed.

Lemma trace_skip {A} (k : Task A) : trace (mret tt;; k) = trace k.
Proof. unfold trace. destruct k as [t r]. reflexivity. Qed.

(** The events of the callback, path by path. *)
Lemma onstop_trace (out : Outside) (state : MockInterviewState)
    (questions : list InterviewQuestion) (jobRole : string) (audioChunks : list Blob) :
  let audioBlob := new_Blob audioChunks in
  let userAudioUrl := createObjectURL out audioBlob in
  trace (onstop out state questions jobRole audioChunks) =
  Dispatch START_PROCESSING ::
  (match previous_url state with
   | Some url => if is_empty url then [] else [RevokeObjectURL url]
   | None => []
   end ++
   CreateObjectURL audioBlob userAudioUrl ::
   (if (size audioBlob <? 200)%Z then
      [Dispatch (FINISH_PROCESSING (no_audio_answer userAudioUrl))]
    else
      TranscribeAudio audioBlob ::
      match transcribeAudio (new_File out audioBlob "audio/webm") (transcription out) with
      | Pending => []
      | Throw e => [Dispatch (PROCESSING_ERROR (error_message e))]
      | Return transcribedText =>
          if is_empty (trim transcribedText) then
            [Dispatch (FINISH_PROCESSING (not_understood_answer userAudioUrl))]
          else
            match nth_question questions (currentIndex state) with
            | None => [Dispatch (PROCESSING_ERROR (error_message TypeError))]
            | Some q =>
                GenerateAnswerFeedback (question q) transcribedText jobRole ::
                match generateAnswerFeedback (feedback_generation out) with
                | Pending => []
                | Throw e => [Dispatch (PROCESSING_ERROR (error_message e))]
                | Return feedback =>
                    [Dispatch (FINISH_PROCESSING
                                 {| userAnswer := transcribedText;
                                    feedback := Structured feedback;
                                    Interview.userAudioUrl := Some userAudioUrl |})]
                end
            end
      end))%list.
Proof.
  cbv zeta. unfold onstop, dispatch. cbv zeta.
  rewrite trace_emit. f_equal.
  assert (forall (k : Task unit) (pre : Task unit) (evs : list event),
            (forall k', trace (pre;; k') = (evs ++ trace k')%list) ->
            trace (pre;; k) = (evs ++ trace k)%list) as Hpre by auto.
  rewrite (Hpre _ _ (match previous_url state with
                     | Some url => if is_empty url then [] else [RevokeObjectURL url]
                     | None => []
                     end)).
  2: { intros k'. destruct (previous_url state) as [url|]; [destruct (is_empty url)|].
       - apply trace_skip.
       - apply trace_emit.
       - apply trace_skip. }
  f_equal. rewrite trace_emit. f_equal.
  destruct (size _ <? 200)%Z; [reflexivity|].
  unfold Task_try, lift.
  destruct (transcribeAudio _ (transcription out)) as [transcribedText|e|];
    [|reflexivity|reflexivity].
  simpl. destruct (is_empty (trim transcribedText)); [reflexivity|].
  destruct (nth_question questions (currentIndex state)) as [q|]; [|reflexivity].
  simpl. destruct (generateAnswerFeedback (feedback_generation out)); reflexivity.
Qed.

End Pipeline.

(** ** The session *)

Lemma run_cons_dispatch (s : MockInterviewState) (a : MockInterviewAction)
    (t : list event) :
  run s (Dispatch a :: t) = run (mockInterviewReducer s a) t.
Proof. reflexivity. Qed.

Lemma run_released (s : MockInterviewState) (previous : option string) (t : list event) :
  run s (match previous with
         | Some url => if is_empty url then [] else [RevokeObjectURL url]
         | None => []
         end ++ t) = run s t.
Proof. destruct previous as [url|]; [destruct (is_empty url)|]; reflexivity. Qed.

Lemma run_cons_silent (s : MockInterviewState) (e : event) (t : list event) :
  (forall a, e <> Dispatch a) -> run s (e :: t) = run s t.
Proof. destruct e; intros H; [now destruct (H action) | reflexivity ..]. Qed.

(** Rewrites the session after [handleStopRecording] into the session
    after the last events of the callback, from the state in which
    processing has begun. *)
Ltac after_stop :=
  unfold handleStopRecording; rewrite onstop_trace; cbv zeta;
  rewrite !run_cons_dispatch, run_released;
  rewrite (run_cons_silent _ (CreateObjectURL _ _)) by discriminate.

Ltac after_transcription :=
  rewrite (run_cons_silent _ (TranscribeAudio _)) by discriminate.

Ltac after_feedback_request :=
  rewrite (run_cons_silent _ (GenerateAnswerFeedback _ _ _)) by discriminate.

(** C4. A clip below 200 bytes is answered with the sentinel for a silent
    recording and an instructive message, and the step becomes [feedback],
    not [error]. *)
Theorem silent_clip_yields_no_audio_feedback `{R : Runtime}
    (out : Outside) (state : MockInterviewState) (questions : list InterviewQuestion)
    (jobRole : string) (audioChunks : list Blob) :
  size (new_Blob audioChunks) < 200 ->
  let final := run state (handleStopRecording out (Some recording) state questions
                            jobRole audioChunks) in
  step final = StepFeedback
  /\ step final <> StepError
  /\ exists answer,
       answers final !! currentIndex state = Some answer
       /\ userAnswer answer = "(No audio was detected)"
       /\ feedback answer
          = Text "It seems no audio was captured. Please ensure your microphone is working correctly and try recording your answer again.".
Proof.
  intros Hsize final. subst final. after_stop.
  apply Z.ltb_lt in Hsize. rewrite Hsize. simpl.
  split; [reflexivity|]. split; [discriminate|].
  eexists. split; [apply lookup_insert_eq|]. split; reflexivity.
Qed.

Lemma silent_clip_yields_no_audio_feedback_witness :
  size (new_Blob Scenario.silent_clip) = 50
  /\ step (run initialState
             (handleStopRecording (R := JSONText.reference)
                (Scenario.outside (Resolved (Some "unused")) (Resolved None))
                (Some recording) initialState Scenario.questions "Backend Developer"
                Scenario.silent_clip))
     = StepFeedback.
Proof.
  split; [reflexivity|].
  apply (silent_clip_yields_no_audio_feedback (R := JSONText.reference)
           (Scenario.outside (Resolved (Some "unused")) (Resolved None))
           initialState Scenario.questions "Backend Developer" Scenario.silent_clip).
  vm_compute. reflexivity.
Defined.

(** C5. When the transcript of a clip is empty or blank, the answer is the
    sentinel for audio that was not understood, the step becomes
    [feedback], no error is dispatched and feedback generation is not
    called. *)
Theorem blank_transcript_yields_not_understood `{R : Runtime}
    (out : Outside) (state : MockInterviewState) (questions : list InterviewQuestion)
    (jobRole : string) (audioChunks : list Blob) (transcribedText : string) :
  200 <= size (new_Blob audioChunks) ->
  transcribeAudio (new_File out (new_Blob audioChunks) "audio/webm") (transcription out)
  = Return transcribedText ->
  trim transcribedText = EmptyString ->
  let events := handleStopRecording out (Some recording) state questions jobRole
                  audioChunks in
  let final := run state events in
  step final = StepFeedback
  /\ error final = error state
  /\ (exists answer,
        answers final !! currentIndex state = Some answer
        /\ userAnswer answer = "(Could not understand audio)")
  /\ In (TranscribeAudio (new_Blob audioChunks)) events
  /\ forall question answer role, ~ In (GenerateAnswerFeedback question answer role) events.
Proof.
  intros Hsize Htext Hblank events final. subst final events.
  apply Z.ltb_ge in Hsize. apply is_empty_true in Hblank.
  split; [|split; [|split]].
  - after_stop. rewrite Hsize, Htext, Hblank. reflexivity.
  - after_stop. rewrite Hsize, Htext, Hblank. reflexivity.
  - after_stop. rewrite Hsize, Htext, Hblank. after_transcription. simpl.
    eexists. split; [apply lookup_insert_eq | reflexivity].
  - unfold handleStopRecording. rewrite onstop_trace. cbv zeta.
    rewrite Hsize, Htext, Hblank.
    destruct (previous_url state) as [url|]; [destruct (is_empty url)|];
      (split; [simpl; auto 10 | intros question answer role; simpl; intuition discriminate]).
Qed.

Lemma blank_transcript_yields_not_understood_witness :
  step (run initialState
          (handleStopRecording (R := JSONText.reference)
             (Scenario.outside (Resolved (Some "  ")) (Resolved None))
             (Some recording) initialState Scenario.questions "Backend Developer"
             Scenario.spoken_clip))
  = StepFeedback.
Proof.
  apply (blank_transcript_yields_not_understood (R := JSONText.reference)
           (Scenario.outside (Resolved (Some "  ")) (Resolved None))
           initialState Scenario.questions "Backend Developer" Scenario.spoken_clip
           EmptyString).
  - vm_compute. discriminate.
  - reflexivity.
  - reflexivity.
Defined.

(** C10. The sentinel stored for a clip below 200 bytes carries the object
    URL of that clip, which was created before the answer was
    dispatched: its [userAudioUrl] is not [null]. *)
Theorem silent_clip_answer_keeps_audio_url `{R : Runtime}
    (out : Outside) (state : MockInterviewState) (questions : list InterviewQuestion)
    (jobRole : string) (audioChunks : list Blob) :
  size (new_Blob audioChunks) < 200 ->
  let audioBlob := new_Blob audioChunks in
  let events := handleStopRecording out (Some recording) state questions jobRole
                  audioChunks in
  let final := run state events in
  exists answer,
    answers final !! currentIndex state = Some answer
    /\ userAnswer answer = "(No audio was detected)"
    /\ userAudioUrl answer = Some (createObjectURL out audioBlob)
    /\ userAudioUrl answer <> None
    /\ In (CreateObjectURL audioBlob (createObjectURL out audioBlob))
          (before is_FINISH_PROCESSING events).
Proof.
  intros Hsize audioBlob events final. subst final events audioBlob.
  apply Z.ltb_lt in Hsize.
  exists (no_audio_answer (createObjectURL out (new_Blob audioChunks))).
  split; [|split; [reflexivity|split; [reflexivity|split; [discriminate|]]]].
  - after_stop. rewrite Hsize. simpl. apply lookup_insert_eq.
  - unfold handleStopRecording. rewrite onstop_trace. cbv zeta. rewrite Hsize.
    destruct (previous_url state) as [url|]; [destruct (is_empty url)|]; simpl; auto.
Qed.

Lemma silent_clip_answer_keeps_audio_url_witness :
  exists answer,
    answers (run initialState
               (handleStopRecording (R := JSONText.reference)
                  (Scenario.outside (Resolved (Some "unused")) (Resolved None))
                  (Some recording) initialState Scenario.questions "Backend Developer"
                  Scenario.silent_clip)) !! 0
    = Some answer
    /\ userAudioUrl answer = Some "blob:answer-2".
Proof.
  destruct (silent_clip_answer_keeps_audio_url (R := JSONText.reference)
              (Scenario.outside (Resolved (Some "unused")) (Resolved None))
              initialState Scenario.questions "Backend Developer" Scenario.silent_clip)
    as (answer & Hanswer & _ & Hurl & _).
  - vm_compute. reflexivity.
  - exists answer. split; [exact Hanswer | exact Hurl].
Defined.

(** After a failed read of a clip of at least 200 bytes the callback
    stops at the [await] inside [transcribeAudio]: the call is its last
    event, nothing is dispatched after [START_PROCESSING], and the
    session is left processing, in its step and with its error field as
    they were. *)
Lemma failed_read_stops_the_callback `{R : Runtime}
    (out : Outside) (state : MockInterviewState) (questions : list InterviewQuestion)
    (jobRole : string) (audioChunks : list Blob) :
  200 <= size (new_Blob audioChunks) ->
  readAsDataURL out (new_Blob audioChunks) = None ->
  let events := handleStopRecording out (Some recording) state questions jobRole
                  audioChunks in
  let final := run state events in
  last events = Some (TranscribeAudio (new_Blob audioChunks))
  /\ isProcessing final = true
  /\ step final = step state
  /\ error final = error state
  /\ answers final = answers state.
Proof.
  intros Hsize Hread events final. subst final events.
  apply Z.ltb_ge in Hsize.
  assert (transcribeAudio (new_File out (new_Blob audioChunks) "audio/webm")
            (transcription out) = Pending) as Hpending.
  { rewrite transcribeAudio_unfold. unfold new_File. simpl. rewrite Hread. reflexivity. }
  split.
  - unfold handleStopRecording. rewrite onstop_trace. cbv zeta.
    rewrite Hsize, Hpending.
    destruct (previous_url state) as [url|]; [destruct (is_empty url)|]; reflexivity.
  - after_stop. rewrite Hsize, Hpending. after_transcription.
    repeat split; reflexivity.
Qed.

(** C9. The claim fails on the path that the [try] of the callback does
    not cover: when the read of the recorded clip fails, the promise
    awaited in [fileToGenerativePart] never settles, so the callback
    dispatches [START_PROCESSING] and nothing after it. The session of
    the sample stays in step [question] with [isProcessing] true and no
    error. *)
Theorem unreadable_clip_leaves_processing :
  let events := handleStopRecording (R := JSONText.reference)
                  (Scenario.unreadable (Resolved (Some "I test the contract first."))
                     (Resolved None))
                  (Some recording) initialState Scenario.questions "Backend Developer"
                  Scenario.spoken_clip in
  let final := run initialState events in
  events = [Dispatch STOP_RECORDING; Dispatch START_PROCESSING;
            CreateObjectURL (new_Blob Scenario.spoken_clip) "blob:answer-2";
            TranscribeAudio (new_Blob Scenario.spoken_clip)]
  /\ isProcessing final = true
  /\ step final = StepQuestion
  /\ error final = None.
Proof. vm_compute. repeat split; reflexivity. Qed.

(** C6. From [feedback], [NEXT_QUESTION] on a list of [N] questions moves
    to [question] at the next index when the index is below [N - 1], and
    to [summary] at the same index when the index is [N - 1]. *)
Theorem NEXT_QUESTION_advances_or_summarises
    (state : MockInterviewState) (questions : list InterviewQuestion) :
  step state = StepFeedback ->
  let N := Z.of_nat (List.length questions) in
  let next := mockInterviewReducer state (NEXT_QUESTION questions) in
  (currentIndex state < N - 1 ->
     step next = StepQuestion /\ currentIndex next = currentIndex state + 1)
  /\ (currentIndex state = N - 1 ->
     step next = StepSummary /\ currentIndex next = currentIndex state).
Proof.
  intros _ N next. subst next N. simpl. split.
  - intros Hlt. apply Z.ltb_lt in Hlt. rewrite Hlt. split; reflexivity.
  - intros Heq. rewrite Heq, Z.ltb_irrefl. split; [reflexivity | simpl; lia].
Qed.

Lemma NEXT_QUESTION_advances_or_summarises_witness :
  (step (mockInterviewReducer Scenario.answered (NEXT_QUESTION Scenario.questions))
   = StepQuestion
   /\ currentIndex (mockInterviewReducer Scenario.answered (NEXT_QUESTION Scenario.questions))
      = 1)
  /\ (step (mockInterviewReducer Scenario.answered_last (NEXT_QUESTION Scenario.questions))
      = StepSummary
      /\ currentIndex (mockInterviewReducer Scenario.answered_last
                         (NEXT_QUESTION Scenario.questions))
         = 1).
Proof.
  split.
  - apply (proj1 (NEXT_QUESTION_advances_or_summarises
                    Scenario.answered Scenario.questions eq_refl)).
    simpl. lia.
  - apply (proj2 (NEXT_QUESTION_advances_or_summarises
                    Scenario.answered_last Scenario.questions eq_refl)).
    reflexivity.
Defined.

(** Reading the question, counting down, the grant of the microphone and
    the recording clock leave the answers and the index alone. *)
Lemma recording_phase_keeps_answers (s : MockInterviewState) (a : MockInterviewAction) :
  recording_phase a = true ->
  answers (mockInterviewReducer s a) = answers s
  /\ currentIndex (mockInterviewReducer s a) = currentIndex s.
Proof. destruct a; simpl; intros H; try discriminate; split; reflexivity. Qed.

Lemma reduce_all_keeps_answers (acts : list MockInterviewAction) (s : MockInterviewState) :
  forallb recording_phase acts = true ->
  answers (reduce_all s acts) = answers s
  /\ currentIndex (reduce_all s acts) = currentIndex s.
Proof.
  revert s. induction acts as [|a acts IH]; intros s Hacts; [split; reflexivity|].
  simpl in Hacts. apply andb_true_iff in Hacts as [Ha Hacts].
  destruct (recording_phase_keeps_answers s a Ha) as [Hans Hidx].
  destruct (IH (mockInterviewReducer s a) Hacts) as [Hans' Hidx'].
  unfold reduce_all in *. simpl. split; congruence.
Qed.

(** C7. [RETRY_QUESTION] from [feedback] goes back to [question] at the
    same index and keeps the answers; when the new recording is stopped,
    the URL stored for that index is revoked before the URL of the new
    clip is created, hence before the new answer replaces the old one. *)
Theorem RETRY_QUESTION_releases_previous_audio `{R : Runtime}
    (state : MockInterviewState) (previous : AnswerFeedback) (url : string)
    (acts : list MockInterviewAction) (out : Outside)
    (questions : list InterviewQuestion) (jobRole : string) (audioChunks : list Blob) :
  step state = StepFeedback ->
  answers state !! currentIndex state = Some previous ->
  userAudioUrl previous = Some url ->
  url <> EmptyString ->
  forallb recording_phase acts = true ->
  let retried := mockInterviewReducer state RETRY_QUESTION in
  let at_stop := reduce_all retried acts in
  let events := handleStopRecording out (Some recording) at_stop questions jobRole
                  audioChunks in
  step retried = StepQuestion
  /\ currentIndex retried = currentIndex state
  /\ answers retried = answers state
  /\ before is_CreateObjectURL events
     = [Dispatch STOP_RECORDING; Dispatch START_PROCESSING; RevokeObjectURL url]
  /\ In (RevokeObjectURL url) (before is_FINISH_PROCESSING events)
  /\ In (CreateObjectURL (new_Blob audioChunks) (createObjectURL out (new_Blob audioChunks)))
        events.
Proof.
  intros _ Hprevious Hurl Hne Hacts retried at_stop events.
  split; [reflexivity|]. split; [reflexivity|]. split; [reflexivity|].
  destruct (reduce_all_keeps_answers acts retried Hacts) as [Hans Hidx].
  assert (previous_url at_stop = Some url) as Hprev.
  { unfold previous_url. subst at_stop. rewrite Hans, Hidx. subst retried. simpl.
    rewrite Hprevious. exact Hurl. }
  assert (is_empty url = false) as Hfull.
  { destruct url; [contradiction | reflexivity]. }
  subst events. unfold handleStopRecording. rewrite onstop_trace. cbv zeta.
  rewrite Hprev, Hfull. simpl. auto 10.
Qed.

Lemma RETRY_QUESTION_releases_previous_audio_witness :
  before is_CreateObjectURL
    (handleStopRecording (R := JSONText.reference)
       (Scenario.outside (Resolved (Some "I am a backend developer.")) (Resolved None))
       (Some recording)
       (reduce_all (mockInterviewReducer Scenario.answered RETRY_QUESTION)
          Scenario.retry_to_stop)
       Scenario.questions "Backend Developer" Scenario.spoken_clip)
  = [Dispatch STOP_RECORDING; Dispatch START_PROCESSING; RevokeObjectURL "blob:answer-1"].
Proof.
  apply (RETRY_QUESTION_releases_previous_audio (R := JSONText.reference)
           Scenario.answered
           {| userAnswer := "I am a developer.";
              feedback := Text "Say more about your last project.";
              userAudioUrl := Some "blob:answer-1" |}
           "blob:answer-1" Scenario.retry_to_stop
           (Scenario.outside (Resolved (Some "I am a backend developer.")) (Resolved None))
           Scenario.questions "Backend Developer" Scenario.spoken_clip).
  - reflexivity.
  - reflexivity.
  - reflexivity.
  - discriminate.
  - reflexivity.
Defined.

(** The Record button is not there while a recording runs. *)
Lemma Record_button_enabled_idle (s : MockInterviewState) :
  Record_button_enabled s = true -> isRecording s = false /\ countdown s = None.
Proof.
  unfold Record_button_enabled. rewrite !andb_true_iff.
  intros [[[[_ _] Hcount] Hrec] _].
  apply bool_decide_eq_true in Hcount. apply negb_true_iff in Hrec. auto.
Qed.

(** C8. In every state that the component can reach from the initial
    state, [isRecording] and a countdown in progress do not hold
    together. *)
Theorem recording_excludes_countdown (s : MockInterviewState) :
  reachable s -> ~ (isRecording s = true /\ countdown s <> None).
Proof.
  induction 1 as [|s a Hs IH Hcan].
  - intros [H _]. discriminate.
  - destruct a; simpl in Hcan |- *; try exact IH; try (intros [H _]; discriminate).
    + apply Record_button_enabled_idle in Hcan as [Hrec _].
      intros [H _]. congruence.
    + intros [Hrec Hcount]. apply IH. split; [exact Hrec|].
      destruct (countdown s); congruence.
    + intros [_ H]. now apply H.
    + destruct (_ <? _)%Z; exact IH.
Qed.

Lemma reachable_reduce_all (acts : list MockInterviewAction) (s : MockInterviewState) :
  reachable s -> admissible s acts = true -> reachable (reduce_all s acts).
Proof.
  revert s. induction acts as [|a acts IH]; intros s Hs Hacts; [exact Hs|].
  simpl in Hacts. apply andb_true_iff in Hacts as [Ha Hacts].
  apply (IH (mockInterviewReducer s a)); [|exact Hacts].
  now apply reachable_dispatch.
Qed.

Lemma recording_excludes_countdown_witness :
  let s := reduce_all initialState
             [PLAY_QUESTION_AUDIO; FINISH_QUESTION_AUDIO; START_COUNTDOWN;
              DECREMENT_COUNTDOWN; DECREMENT_COUNTDOWN; DECREMENT_COUNTDOWN;
              REQUEST_PERMISSION_SUCCESS 1%nat; START_RECORDING] in
  reachable s /\ ~ (isRecording s = true /\ countdown s <> None).
Proof.
  intros s.
  assert (reachable s) as Hs.
  { apply reachable_reduce_all; [apply reachable_initial | reflexivity]. }
  split; [exact Hs|].
  exact (recording_excludes_countdown s Hs).
Defined.

(** The guard of the Record button carries the invariant: the reducer
    alone would start a countdown over a running recording. *)
Lemma START_COUNTDOWN_needs_its_guard :
  let s := mockInterviewReducer initialState START_RECORDING in
  can_dispatch s START_COUNTDOWN = false
  /\ isRecording (mockInterviewReducer s START_COUNTDOWN) = true
  /\ countdown (mockInterviewReducer s START_COUNTDOWN) = Some 3.
Proof. repeat split. Qed.

(** * Further properties of the code *)

Set Warnings "-clear-no-such-hyp".

(** ** Strings *)

Lemma trimEnd_idempotent (s : string) : trimEnd (trimEnd s) = trimEnd s.
Proof.
  induction s as [|c r IH]; [reflexivity|].
  simpl. destruct (trimEnd r) as [|c' t] eqn:Hr.
  - destruct (is_white_space c) eqn:Hc; [reflexivity|].
    simpl. rewrite Hc. reflexivity.
  - simpl in IH |- *. destruct (trimEnd t) as [|c'' t'] eqn:Ht.
    + destruct (is_white_space c') eqn:Hc'; [discriminate|].
      now rewrite IH.
    + now rewrite IH.
Qed.

Lemma trimStart_clean (s : string) : starts_clean (trimStart s).
Proof.
  induction s as [|c r IH]; [exact I|].
  simpl. destruct (is_white_space c) eqn:Hc; [exact IH | exact Hc].
Qed.

Lemma trimStart_of_clean (s : string) : starts_clean s -> trimStart s = s.
Proof. destruct s as [|c r]; [reflexivity|]. simpl. now intros ->. Qed.

Lemma trimEnd_clean (s : string) :
  starts_clean s -> starts_clean (trimEnd s).
Proof.
  destruct s as [|c r]; [intros _; exact I|].
  simpl. intros Hc. destruct (trimEnd r); rewrite ?Hc; exact Hc.
Qed.

Lemma trim_idempotent (s : string) : trim (trim s) = trim s.
Proof.
  unfold trim.
  rewrite (trimStart_of_clean (trimEnd (trimStart s)))
    by apply trimEnd_clean, trimStart_clean.
  apply trimEnd_idempotent.
Qed.

(** ** Inherited members and numbers *)

(** A key that names a member of the prototype reads a function, not
    [undefined]: the key loop lets it through. *)
Example inherited_key_is_defined :
  parseAndValidateJSON (R := JSONText.reference) (Some "{}") ["toString"]
  = Return (JObj [])
  /\ parseAndValidateJSON (R := JSONText.reference) (Some "[]") ["map"; "length"]
     = Return (JArr [])
  /\ parseAndValidateJSON (R := JSONText.reference) (Some "{}") ["map"]
     = Throw FormatError.
Proof. vm_compute. repeat split; reflexivity. Qed.

(** The keys that the code itself reads or requires name no member of a
    prototype: at them a read is the read of an own property. *)
Lemma response_keys_are_own (v : json) :
  forallb (fun k => negb (inherited v k))
    ["status"; "reason"; "questions"; "companyName"; "approachGuide"; "explanation";
     "code"; "clarity"; "structure"; "relevance"; "overallImpression";
     "improvementPoints"; "followUpQuestion"]
  = true.
Proof. destruct v; reflexivity. Qed.

Example denotes_zero_samples :
  List.map App.denotes_zero ["0"; "-0.0"; "0e5"; "1e-400"; "2e-324"; "3e-324"; "5e-324";
                             "0.1"; "12"; "1E5"; "1e+400"]
  = [true; true; true; true; true; false; false; false; false; false; false].
Proof. vm_compute. reflexivity. Qed.

(** ** The gateway operations, continued *)

Section GatewayMore.
Context `{R : Runtime}.

(** X1. Once the clip has been read, [transcribeAudio] turns every text
    of the exchange into a result, the empty one included, and what it
    returns is already trimmed: the second [trim] of the caller changes
    nothing, and the transcript is blank exactly when it is the empty
    string. It stays pending exactly when the read of the clip failed. *)
Theorem transcribeAudio_returns_trimmed (audioFile : File) (response : gateway_response) :
  (forall url text, dataURL audioFile = Some url -> response = Resolved (Some text) ->
                    transcribeAudio audioFile response = Return (trim text))
  /\ (forall transcribedText,
        transcribeAudio audioFile response = Return transcribedText ->
        trim transcribedText = transcribedText
        /\ is_empty (trim transcribedText) = is_empty transcribedText)
  /\ (transcribeAudio audioFile response = Pending <-> dataURL audioFile = None).
Proof.
  rewrite transcribeAudio_unfold. split; [|split].
  - intros url text -> ->. reflexivity.
  - intros t Ht. destruct (dataURL audioFile); [|discriminate].
    destruct response as [reason|[text|]]; try discriminate.
    injection Ht as <-. rewrite trim_idempotent. split; reflexivity.
  - destruct (dataURL audioFile); [|split; reflexivity].
    destruct response as [reason|[text|]]; split; discriminate.
Qed.

(** X2. Whatever the exchange does, what [validateJobInput] returns is a
    verdict: its status is one of [valid], [improvable] and [invalid]
    and its reason is a string. *)
Theorem validateJobInput_returns_verdict (response : gateway_response) :
  exists validation,
    validateJobInput response = Return validation
    /\ is_verdict validation = true
    /\ (exists status reason,
          field validation "status" = Some (JStr status)
          /\ field validation "reason" = Some (JStr reason)
          /\ (status = "valid" \/ status = "improvable" \/ status = "invalid")).
Proof.
  assert (forall v, is_verdict v = true ->
            exists status reason,
              field v "status" = Some (JStr status)
              /\ field v "reason" = Some (JStr reason)
              /\ (status = "valid" \/ status = "improvable" \/ status = "invalid"))
    as Hshape.
  { intros v Hv. unfold is_verdict in Hv. apply andb_true_iff in Hv as [Hs Hr].
    destruct (field v "status") as [[| | |status| |]|]; try discriminate.
    destruct (field v "reason") as [[| | |reason| |]|]; try discriminate.
    exists status, reason. split; [reflexivity|]. split; [reflexivity|].
    simpl in Hs. rewrite !orb_true_iff, !String.eqb_eq in Hs. tauto. }
  rewrite validateJobInput_unfold.
  assert (is_verdict fallback_validation = true) as Hfallback by reflexivity.
  destruct response as [reason|[text|]]; eauto.
  destruct (JSON_parse (trim text)) as [parsed|]; eauto.
  destruct (is_verdict parsed) eqn:Hparsed; eauto.
Qed.

(** A value in which some key reads a value is not [null]: every key can
    be read in it. *)
Lemma present_reads (r : json) (key key' : string) :
  present r key -> exists u, is_undefined r key' = Return u.
Proof.
  unfold present, is_undefined. intros Hp.
  destruct r; simpl in *; try discriminate; eauto.
  - destruct (String.eqb key' "length"); simpl; eauto.
  - destruct (String.eqb key' "length"); simpl; eauto.
Qed.

(** What a gateway operation built on [parseAndValidateJSON] returns,
    for a key list with a required key: the parsed text, when every
    required key of the list is present in it. *)
Lemma parseAndValidateJSON_Return_present (responseText : option string)
    (schemaKeys : list string) (r : json) :
  (exists key, In key schemaKeys /\ key <> "followUpQuestion") ->
  parseAndValidateJSON responseText schemaKeys = Return r <->
  exists text,
    responseText = Some text
    /\ trim text <> EmptyString
    /\ (startsWith (trim text) "{" = true \/ startsWith (trim text) "[" = true)
    /\ JSON_parse (trim text) = Some r
    /\ forall key, In key schemaKeys -> key <> "followUpQuestion" -> present r key.
Proof.
  intros (key0 & Hin0 & Hne0).
  rewrite parseAndValidateJSON_Return. split.
  - intros (text & Ht & Hne & Hd & Hp & Hkeys). exists text.
    repeat (split; [assumption|]).
    intros key Hin Hkey.
    destruct (proj1 (check_keys_Return _ _) Hkeys key Hin) as [H|[H _]];
      [exact H | contradiction].
  - intros (text & Ht & Hne & Hd & Hp & Hall). exists text.
    repeat (split; [assumption|]).
    apply check_keys_Return. intros key Hin.
    destruct (String.eqb key "followUpQuestion") eqn:Hkey.
    + apply String.eqb_eq in Hkey.
      destruct (present_reads r key0 key (Hall key0 Hin0 Hne0)) as [[|] Hp'].
      * right. auto.
      * left. exact Hp'.
    + apply String.eqb_neq in Hkey. left. auto.
Qed.

(** A [try]/[catch] whose handler throws returns what its body returns. *)
Lemma caught_Return {A} (body : result A) (handler : exn -> exn) (r : A) :
  try_catch body (fun e => Throw (handler e)) = Return r <-> body = Return r.
Proof. destruct body; simpl; split; congruence. Qed.

(** X3. [generateAnswerFeedback] returns the parsed response exactly when
    the exchange resolved with a delimited text that parses and has the
    five keys [clarity], [structure], [relevance], [overallImpression]
    and [improvementPoints] present, with or without [followUpQuestion];
    the values of the keys are not inspected. Every failure is the same
    generation error. *)
Theorem generateAnswerFeedback_returns_iff (response : gateway_response) :
  (forall r,
     generateAnswerFeedback response = Return r <->
     exists text,
       response = Resolved (Some text)
       /\ trim text <> EmptyString
       /\ (startsWith (trim text) "{" = true \/ startsWith (trim text) "[" = true)
       /\ JSON_parse (trim text) = Some r
       /\ present r "clarity" /\ present r "structure" /\ present r "relevance"
       /\ present r "overallImpression" /\ present r "improvementPoints")
  /\ (forall e, generateAnswerFeedback response = Throw e ->
                e = GenerationError_feedback).
Proof.
  split; [|apply generateAnswerFeedback_Throw].
  intros r. unfold generateAnswerFeedback.
  destruct response as [reason|text]; simpl.
  { split; [discriminate | intros (t & H & _); discriminate]. }
  rewrite caught_Return, parseAndValidateJSON_Return_present
    by (exists "clarity"; split; [simpl; auto | discriminate]).
  split.
  - intros (t & -> & Hne & Hd & Hparse & Hall).
    exists t. repeat split; auto; apply Hall; simpl; auto 10; discriminate.
  - intros (t & Ht & Hne & Hd & Hparse & Hc & Hs & Hr & Ho & Hi).
    injection Ht as ->. exists t. repeat split; auto.
    intros key [<-|[<-|[<-|[<-|[<-|[<-|[]]]]]]] Hkey; auto. contradiction.
Qed.

(** Past the read of the file, [generateTechnicalSolution] is its
    [try] block. *)
Lemma generateTechnicalSolution_unfold (file : option File) (response : gateway_response) :
  Gateway.generateTechnicalSolution file response =
  if Gateway.unreadable file then Pending
  else try_catch
         (text ← await response;
          parseAndValidateJSON text ["explanation"; "code"])
         (fun error => Throw Gateway.GenerationError_solution).
Proof.
  unfold Gateway.generateTechnicalSolution, Gateway.unreadable, fileToGenerativePart.
  destruct file as [[[url|] type]|]; reflexivity.
Qed.

Lemma generateTechnicalSolution_Throw (file : option File) (response : gateway_response)
    (e : exn) :
  Gateway.generateTechnicalSolution file response = Throw e ->
  e = Gateway.GenerationError_solution.
Proof.
  rewrite generateTechnicalSolution_unfold.
  destruct (Gateway.unreadable file); [discriminate|].
  unfold try_catch. destruct (_ ≫= _); intros H; now simplify_eq.
Qed.

(** [generateTechnicalSolution] stays pending exactly when a file was
    attached and its read failed. *)
Lemma generateTechnicalSolution_Pending (file : option File) (response : gateway_response) :
  Gateway.generateTechnicalSolution file response = Pending <->
  Gateway.unreadable file = true.
Proof.
  rewrite generateTechnicalSolution_unfold.
  destruct (Gateway.unreadable file); [split; reflexivity|].
  destruct response as [reason|text]; simpl; [split; discriminate|].
  pose proof (parseAndValidateJSON_settles text ["explanation"; "code"]).
  destruct (parseAndValidateJSON text _); simpl; split; congruence.
Qed.

(** X4. [generateTechnicalSolution] returns the parsed response exactly
    when the file, if one was attached, has been read and the exchange
    resolved with a delimited text that parses and has the keys
    [explanation] and [code] present; every failure is the same
    generation error, and the call stays pending exactly when the read
    of an attached file failed. *)
Theorem generateTechnicalSolution_returns_iff (file : option File)
    (response : gateway_response) :
  (forall r,
     Gateway.generateTechnicalSolution file response = Return r <->
     Gateway.unreadable file = false
     /\ exists text,
          response = Resolved (Some text)
          /\ trim text <> EmptyString
          /\ (startsWith (trim text) "{" = true \/ startsWith (trim text) "[" = true)
          /\ JSON_parse (trim text) = Some r
          /\ present r "explanation" /\ present r "code")
  /\ (forall e, Gateway.generateTechnicalSolution file response = Throw e ->
                e = Gateway.GenerationError_solution)
  /\ (Gateway.generateTechnicalSolution file response = Pending <->
      Gateway.unreadable file = true).
Proof.
  split; [|split; [apply generateTechnicalSolution_Throw
                  | apply generateTechnicalSolution_Pending]].
  intros r. rewrite generateTechnicalSolution_unfold.
  destruct (Gateway.unreadable file).
  { split; [discriminate | intros [H _]; discriminate]. }
  destruct response as [reason|text]; simpl.
  { split; [discriminate | intros (_ & t & H & _); discriminate]. }
  rewrite caught_Return, parseAndValidateJSON_Return_present
    by (exists "code"; split; [simpl; auto | discriminate]).
  split.
  - intros (t & -> & Hne & Hd & Hparse & Hall).
    split; [reflexivity|].
    exists t. repeat split; auto; apply Hall; simpl; auto; discriminate.
  - intros (_ & t & Ht & Hne & Hd & Hparse & He & Hc).
    injection Ht as ->. exists t. repeat split; auto.
    intros key [<-|[<-|[]]] Hkey; auto.
Qed.

End GatewayMore.

(** When [textToSpeech] returns, and what it throws. *)
Lemma textToSpeech_cases (outcome : Gateway.speech_outcome) :
  (forall base64Audio,
     Gateway.textToSpeech outcome = Return base64Audio <->
     exists response,
       outcome = Gateway.SpeechResolved response
       /\ Gateway.inline_audio response = Some base64Audio
       /\ base64Audio <> EmptyString)
  /\ (forall e, Gateway.textToSpeech outcome = Throw e ->
                e = Gateway.GenerationError_speech).
Proof.
  unfold Gateway.textToSpeech.
  destruct outcome as [reason|response]; simpl.
  { split.
    - intros a. split; [discriminate | intros (r & H & _); discriminate].
    - intros e H. now injection H. }
  destruct (Gateway.inline_audio response) as [[|c audio]|] eqn:Haudio; simpl; split.
  - intros a. split; [discriminate|].
    intros (r & Hr & Ha & Hne). injection Hr as <-. congruence.
  - intros e H. now injection H.
  - intros a. split.
    + intros H. injection H as <-. exists response. repeat split; [assumption | discriminate].
    + intros (r & Hr & Ha & _). injection Hr as <-. congruence.
  - discriminate.
  - intros a. split; [discriminate|].
    intros (r & Hr & Ha & _). injection Hr as <-. congruence.
  - intros e H. now injection H.
Qed.

(** X5. [textToSpeech] returns the audio of the first part of the first
    candidate, and only when there is one and it is not empty; a rejected
    exchange, a response without that part and an empty payload all end
    in the same generation error. *)
Theorem textToSpeech_returns_audio (outcome : Gateway.speech_outcome) :
  (forall base64Audio,
     Gateway.textToSpeech outcome = Return base64Audio <->
     exists response,
       outcome = Gateway.SpeechResolved response
       /\ Gateway.inline_audio response = Some base64Audio
       /\ base64Audio <> EmptyString)
  /\ (forall e, Gateway.textToSpeech outcome = Throw e ->
                e = Gateway.GenerationError_speech).
Proof. exact (textToSpeech_cases outcome). Qed.

Lemma split_without_separator (sep : ascii) (s : string) :
  occurs sep s = false -> split sep s = [s].
Proof.
  induction s as [|c r IH]; [reflexivity|].
  simpl. intros H. apply orb_false_iff in H as [Hc Hr].
  rewrite Hc, (IH Hr). reflexivity.
Qed.

Lemma split_at_separator (sep : ascii) (a b : string) :
  occurs sep a = false ->
  split sep (a ++ String sep b) = a :: split sep b.
Proof.
  induction a as [|c r IH]; simpl.
  - intros _. rewrite Ascii.eqb_refl. reflexivity.
  - intros H. apply orb_false_iff in H as [Hc Hr].
    rewrite Hc, (IH Hr). reflexivity.
Qed.

(** X6. [fileToGenerativePart] takes what stands between the first and
    the second comma of the data URL: for a header and a payload without
    comma, as base64 is, the data is the payload; for a data URL without
    any comma the data is [undefined]. After a failed read it never
    settles. *)
Theorem fileToGenerativePart_takes_payload (mimeType : string) :
  (forall header payload,
     occurs "," header = false ->
     occurs "," payload = false ->
     fileToGenerativePart {| dataURL := Some (header ++ String "," payload);
                             type := mimeType |}
     = Return (InlineDataPart (Some payload) mimeType))
  /\ (forall url,
        occurs "," url = false ->
        fileToGenerativePart {| dataURL := Some url; type := mimeType |}
        = Return (InlineDataPart None mimeType))
  /\ fileToGenerativePart {| dataURL := None; type := mimeType |} = Pending.
Proof.
  unfold fileToGenerativePart. simpl. split; [|split; [|reflexivity]].
  - intros header payload Hh Hp.
    rewrite (split_at_separator _ _ _ Hh), (split_without_separator _ _ Hp).
    reflexivity.
  - intros url H. rewrite (split_without_separator _ _ H). reflexivity.
Qed.

Lemma fileToGenerativePart_takes_payload_witness :
  fileToGenerativePart {| dataURL := Some "data:audio/webm;base64,GkXfo59ChoEB";
                          type := "audio/webm" |}
  = Return (InlineDataPart (Some "GkXfo59ChoEB") "audio/webm").
Proof.
  apply (proj1 (fileToGenerativePart_takes_payload "audio/webm")
           "data:audio/webm;base64" "GkXfo59ChoEB"); reflexivity.
Defined.

(** ** The audio helpers *)

Lemma byte_value_range (b : Byte.byte) : 0 <= Audio.byte_value b <= 255.
Proof.
  unfold Audio.byte_value. pose proof (Byte.to_N_bounded b). lia.
Qed.

Lemma int16_range (lo hi : Byte.byte) : -32768 <= Audio.int16 lo hi <= 32767.
Proof.
  unfold Audio.int16.
  pose proof (byte_value_range lo). pose proof (byte_value_range hi).
  cbv zeta. destruct (Z.ltb_spec (Audio.byte_value lo + 256 * Audio.byte_value hi) 32768); lia.
Qed.

(** The view of the bytes as 16-bit integers: it exists exactly when the
    number of bytes is even, and then has half as many elements, each
    within the signed range. *)
Lemma Int16Array_spec (data : list Byte.byte) :
  (forall l, Audio.Int16Array data = Return l ->
     List.length data = (2 * List.length l)%nat
     /\ Forall (fun v => -32768 <= v <= 32767) l)
  /\ (forall e, Audio.Int16Array data = Throw e ->
        e = Audio.RangeError /\ Nat.odd (List.length data) = true).
Proof.
  enough (forall data : list Byte.byte,
            ((forall l, Audio.Int16Array data = Return l ->
                List.length data = (2 * List.length l)%nat
                /\ Forall (fun v => -32768 <= v <= 32767) l)
             /\ (forall e, Audio.Int16Array data = Throw e ->
                   e = Audio.RangeError /\ Nat.odd (List.length data) = true))
            /\ forall b,
                ((forall l, Audio.Int16Array (b :: data) = Return l ->
                    List.length (b :: data) = (2 * List.length l)%nat
                    /\ Forall (fun v => -32768 <= v <= 32767) l)
                 /\ (forall e, Audio.Int16Array (b :: data) = Throw e ->
                       e = Audio.RangeError
                       /\ Nat.odd (List.length (b :: data)) = true)))
    as H by apply H.
  clear data. induction data as [|hi rest [IHrest IHcons]].
  - split; [split|intros b; split].
    + intros l H. injection H as <-. split; [reflexivity | constructor].
    + discriminate.
    + discriminate.
    + intros e H. injection H as <-. split; reflexivity.
  - split; [apply IHcons|].
    intros lo. destruct IHrest as [IHret IHthrow]. split.
    + intros l. simpl.
      destruct (Audio.Int16Array rest) as [samples|e|] eqn:Hrest; simpl;
        [|discriminate|discriminate].
      intros H. injection H as <-. destruct (IHret samples eq_refl) as [Hlen Hall].
      split; [simpl; lia|]. constructor; [apply int16_range | exact Hall].
    + intros e. simpl.
      destruct (Audio.Int16Array rest) as [samples|e'|] eqn:Hrest; simpl;
        [discriminate| |discriminate].
      intros H. injection H as <-. destruct (IHthrow e' eq_refl) as [-> Hodd].
      split; [reflexivity|].
      change (List.length (lo :: hi :: rest)) with (S (S (List.length rest))).
      rewrite Nat.odd_succ_succ. exact Hodd.
Qed.

Lemma Int16Array_settles (data : list Byte.byte) : Audio.Int16Array data <> Pending.
Proof.
  enough (forall data : list Byte.byte,
            Audio.Int16Array data <> Pending
            /\ forall b, Audio.Int16Array (b :: data) <> Pending) as H by apply H.
  clear data. induction data as [|hi rest [IHrest IHcons]].
  - split; [discriminate | intros b; discriminate].
  - split; [apply IHcons|]. intros lo. simpl.
    destruct (Audio.Int16Array rest); simpl; congruence.
Qed.

(** X7. Every sample that [decodeAudioData] puts into the buffer lies in
    the range from -1 inclusive to 1 exclusive. *)
Theorem decodeAudioData_samples_in_range `{C : Audio.AudioContext}
    (data : list Byte.byte) (sampleRate numChannels : Z) (buffer : Audio.AudioBuffer) :
  Audio.decodeAudioData data sampleRate numChannels = Return buffer ->
  forall channel sample,
    In channel (Audio.channelData buffer) -> In sample channel ->
    QArith_base.Qle (QArith_base.Qmake (-1) 1) sample
    /\ QArith_base.Qlt sample (QArith_base.Qmake 1 1).
Proof.
  unfold Audio.decodeAudioData.
  destruct (Audio.Int16Array data) as [dataInt16|e|] eqn:Hview; simpl;
    [|discriminate|discriminate].
  destruct (proj1 (Int16Array_spec data) dataInt16 Hview) as [_ Hall].
  destruct (Audio.createBuffer_accepts _ _ _); [|discriminate].
  intros H. injection H as <-. simpl.
  intros channel sample Hch Hs.
  apply in_map_iff in Hch as (c & <- & _).
  apply in_map_iff in Hs as (i & <- & _).
  unfold Audio.normalized, QArith_base.Qle, QArith_base.Qlt. simpl.
  assert (-32768 <= List.nth (i * Z.to_nat numChannels + c) dataInt16 0 <= 32767) as Hv.
  { destruct (nth_in_or_default (i * Z.to_nat numChannels + c) dataInt16 0) as [Hin| ->];
      [|lia].
    rewrite List.Forall_forall in Hall. exact (Hall _ Hin). }
  lia.
Qed.

Lemma decodeAudioData_samples_in_range_witness :
  QArith_base.Qle (QArith_base.Qmake (-1) 1) (QArith_base.Qmake (-32768) 32768)
  /\ QArith_base.Qlt (QArith_base.Qmake (-32768) 32768) (QArith_base.Qmake 1 1).
Proof.
  apply (decodeAudioData_samples_in_range (C := Audio.granted_limits)
           [Byte.x00; Byte.x80; Byte.xff; Byte.x7f] 24000 1
           {| Audio.sampleRate := 24000;
              Audio.channelData :=
                [[QArith_base.Qmake (-32768) 32768; QArith_base.Qmake 32767 32768]] |}
           eq_refl
           [QArith_base.Qmake (-32768) 32768; QArith_base.Qmake 32767 32768]);
    simpl; auto.
Defined.

(** X8. The buffer of [decodeAudioData] has the requested rate and
    [numChannels] channels of as many frames as the 16-bit view holds
    whole frames, and frame [i] of channel [c] is the integer at place
    [i * numChannels + c] of the view, divided by 32768. *)
Theorem decodeAudioData_deinterleaves `{C : Audio.AudioContext}
    (data : list Byte.byte) (sampleRate numChannels : Z) (buffer : Audio.AudioBuffer) :
  Audio.decodeAudioData data sampleRate numChannels = Return buffer ->
  exists dataInt16,
    Audio.Int16Array data = Return dataInt16
    /\ List.length data = (2 * List.length dataInt16)%nat
    /\ Audio.sampleRate buffer = sampleRate
    /\ List.length (Audio.channelData buffer) = Z.to_nat numChannels
    /\ forall c channel,
         Audio.channelData buffer !! c = Some channel ->
         List.length channel = Z.to_nat (Z.of_nat (List.length dataInt16) / numChannels)
         /\ forall i sample,
              channel !! i = Some sample ->
              exists v,
                dataInt16 !! (i * Z.to_nat numChannels + c)%nat = Some v
                /\ sample = QArith_base.Qmake v 32768.
Proof.
  unfold Audio.decodeAudioData.
  destruct (Audio.Int16Array data) as [dataInt16|e|] eqn:Hview; simpl;
    [|discriminate|discriminate].
  destruct (proj1 (Int16Array_spec data) dataInt16 Hview) as [Hlen _].
  destruct (Audio.createBuffer_accepts _ _ _) eqn:Haccepts; [|discriminate].
  assert (1 <= numChannels) as Hnc.
  { unfold Audio.createBuffer_accepts in Haccepts.
    rewrite !andb_true_iff in Haccepts. destruct Haccepts as [[[H _] _] _].
    now apply Z.leb_le in H. }
  intros H. injection H as <-. simpl.
  exists dataInt16. split; [reflexivity|]. split; [exact Hlen|]. split; [reflexivity|].
  split; [now rewrite List.length_map, List.length_seq|].
  intros c channel Hc.
  change (List.map ?f ?l) with (f <$> l) in Hc.
  rewrite list_lookup_fmap in Hc.
  destruct (seq 0 (Z.to_nat numChannels) !! c) as [c'|] eqn:Hseq; [|discriminate].
  apply lookup_seq in Hseq as [-> Hclt]. simpl in Hc. injection Hc as <-.
  split; [now rewrite List.length_map, List.length_seq|].
  intros i sample Hi.
  change (List.map ?f ?l) with (f <$> l) in Hi.
  rewrite list_lookup_fmap in Hi.
  destruct (seq 0 _ !! i) as [i'|] eqn:Hseq; [|discriminate].
  apply lookup_seq in Hseq as [-> Hilt]. simpl in Hi. injection Hi as <-.
  assert (i * Z.to_nat numChannels + c < List.length dataInt16)%nat as Hk.
  { assert (Z.of_nat i < Z.of_nat (List.length dataInt16) / numChannels) as Hi' by lia.
    pose proof (Z.mul_div_le (Z.of_nat (List.length dataInt16)) numChannels ltac:(lia)).
    nia. }
  destruct (lookup_lt_is_Some_2 dataInt16 _ Hk) as [v Hv].
  exists v. split; [exact Hv|].
  unfold Audio.normalized. rewrite nth_lookup, Hv. reflexivity.
Qed.

Lemma decodeAudioData_deinterleaves_witness :
  exists dataInt16,
    Audio.Int16Array [Byte.x00; Byte.x80; Byte.xff; Byte.x7f] = Return dataInt16
    /\ List.length [Byte.x00; Byte.x80; Byte.xff; Byte.x7f] = (2 * List.length dataInt16)%nat.
Proof.
  destruct (decodeAudioData_deinterleaves (C := Audio.granted_limits)
              [Byte.x00; Byte.x80; Byte.xff; Byte.x7f] 24000 2
              {| Audio.sampleRate := 24000;
                 Audio.channelData :=
                   [[QArith_base.Qmake (-32768) 32768]; [QArith_base.Qmake 32767 32768]] |}
              eq_refl)
    as (dataInt16 & Hview & Hlen & _).
  exists dataInt16. split; [exact Hview | exact Hlen].
Defined.

(** X9. [decodeAudioData] fails with a [RangeError] on an odd number of
    bytes; on an even number it fails with a [NotSupportedError] exactly
    when the platform refuses the buffer: a count of channels below one
    or above the limit, bytes that hold no whole frame (an empty payload
    included) or a rate that is not supported. Otherwise it returns a
    buffer. *)
Theorem decodeAudioData_fails_exactly_when `{C : Audio.AudioContext}
    (data : list Byte.byte) (sampleRate numChannels : Z) :
  (Nat.odd (List.length data) = true ->
     Audio.decodeAudioData data sampleRate numChannels = Throw Audio.RangeError)
  /\ (Nat.odd (List.length data) = false ->
      (numChannels < 1 \/ Audio.max_channels < numChannels
       \/ Z.of_nat (List.length data) / 2 < numChannels
       \/ Audio.supports_rate sampleRate = false) ->
      Audio.decodeAudioData data sampleRate numChannels = Throw Audio.NotSupportedError)
  /\ (Nat.odd (List.length data) = false ->
      1 <= numChannels <= Audio.max_channels ->
      numChannels <= Z.of_nat (List.length data) / 2 ->
      Audio.supports_rate sampleRate = true ->
      exists buffer, Audio.decodeAudioData data sampleRate numChannels = Return buffer).
Proof.
  unfold Audio.decodeAudioData.
  pose proof (Int16Array_settles data) as Hsettles.
  destruct (Audio.Int16Array data) as [dataInt16|e|] eqn:Hview; simpl; [| |congruence].
  - destruct (proj1 (Int16Array_spec data) dataInt16 Hview) as [Hlen _].
    assert (Nat.odd (List.length data) = false) as Heven.
    { rewrite Hlen, Nat.odd_mul. reflexivity. }
    assert (Z.of_nat (List.length data) / 2 = Z.of_nat (List.length dataInt16)) as Hhalf.
    { rewrite Hlen, Nat2Z.inj_mul, Z.mul_comm, Z.div_mul by lia. reflexivity. }
    rewrite Hhalf. split; [congruence|].
    unfold Audio.createBuffer_accepts.
    destruct (Z.leb_spec 1 numChannels) as [Hnc|Hnc]; simpl.
    2: { split; [reflexivity | intros _ ?; lia]. }
    destruct (Z.leb_spec numChannels Audio.max_channels) as [Hmax|Hmax]; simpl.
    2: { split; [reflexivity | intros _ ?; lia]. }
    destruct (Z.to_nat (Z.of_nat (List.length dataInt16) / numChannels))
      as [|frames] eqn:Hframes; simpl.
    + split; [reflexivity|]. intros _ _ Hle _.
      pose proof (Z.div_le_lower_bound (Z.of_nat (List.length dataInt16)) numChannels 1
                    ltac:(lia) ltac:(lia)).
      lia.
    + destruct (Audio.supports_rate sampleRate) eqn:Hrate.
      * split; [|intros _ _ _ _; eexists; reflexivity].
        intros _ [?|[?|[Hlt|?]]]; [lia | lia | | congruence].
        rewrite Z.div_small in Hframes by lia. discriminate.
      * split; [reflexivity | intros _ _ _ ?; discriminate].
  - destruct (proj2 (Int16Array_spec data) e Hview) as [-> Hodd].
    split; [reflexivity|]. split; congruence.
Qed.

Lemma decodeAudioData_fails_exactly_when_witness :
  Audio.decodeAudioData (C := Audio.granted_limits) [] 24000 1
  = Throw Audio.NotSupportedError.
Proof.
  apply (proj1 (proj2 (decodeAudioData_fails_exactly_when (C := Audio.granted_limits)
                         [] 24000 1)));
    [reflexivity | right; right; left; reflexivity].
Defined.

(** ** The small views *)

Lemma formatTime_checked :
  forallb (fun n => String.eqb (View.formatTime (Z.of_nat n)) (View.mm_ss (Z.of_nat n))
                    && (View.read_mm_ss (View.formatTime (Z.of_nat n)) =? Z.of_nat n)%Z)
          (List.seq 0 (60 * 100)) = true.
Proof. vm_compute. reflexivity. Qed.

Lemma formatTime_below_100_minutes (seconds : Z) :
  0 <= seconds < 6000 ->
  View.formatTime seconds = View.mm_ss seconds
  /\ View.read_mm_ss (View.formatTime seconds) = seconds.
Proof.
  intros Hs. pose proof formatTime_checked as Hall.
  rewrite forallb_forall in Hall.
  specialize (Hall (Z.to_nat seconds)).
  rewrite Z2Nat.id in Hall by lia.
  assert (In (Z.to_nat seconds) (List.seq 0 (60 * 100))) as Hin by (apply in_seq; lia).
  apply Hall in Hin. apply andb_true_iff in Hin as [H1 H2].
  apply String.eqb_eq in H1. apply Z.eqb_eq in H2. auto.
Qed.

(** X10. For a time below 100 minutes [formatTime] shows two digits of
    minutes, a colon and two digits of seconds, and two different times
    are shown differently. *)
Theorem formatTime_mm_ss (seconds : Z) :
  0 <= seconds < 6000 ->
  View.formatTime seconds = View.mm_ss seconds
  /\ String.length (View.formatTime seconds) = 5%nat
  /\ forall other, 0 <= other < 6000 ->
       View.formatTime other = View.formatTime seconds -> other = seconds.
Proof.
  intros Hs. destruct (formatTime_below_100_minutes seconds Hs) as [Hface Hread].
  split; [exact Hface|]. split; [rewrite Hface; reflexivity|].
  intros other Ho Heq.
  destruct (formatTime_below_100_minutes other Ho) as [_ Hread'].
  congruence.
Qed.

Lemma formatTime_mm_ss_witness : View.formatTime 754 = "12:34".
Proof.
  exact (proj1 (formatTime_mm_ss 754 ltac:(lia))).
Defined.

(** X11. [RatingDisplay] shows five stars, of which the first
    [min 5 (max 0 score)] are filled: [score] stars for a score from 1 to
    5, none for a score of zero or less and all five for a score above
    five. *)
Theorem RatingDisplay_fills_clamped (score : Z) :
  View.RatingDisplay score
  = (List.repeat true (Z.to_nat (Z.min 5 (Z.max 0 score)))
     ++ List.repeat false (5 - Z.to_nat (Z.min 5 (Z.max 0 score))))%list.
Proof.
  unfold View.RatingDisplay. simpl List.map.
  assert (score <= 0 \/ score = 1 \/ score = 2 \/ score = 3 \/ score = 4 \/ 5 <= score)
    as [H|[->|[->|[->|[->|H]]]]] by lia; try reflexivity.
  - replace (Z.min 5 (Z.max 0 score)) with 0 by lia.
    repeat match goal with |- context [(?i <? score)%Z] =>
      replace (i <? score)%Z with false by (symmetry; apply Z.ltb_ge; lia) end.
    reflexivity.
  - replace (Z.min 5 (Z.max 0 score)) with 5 by lia.
    repeat match goal with |- context [(?i <? score)%Z] =>
      replace (i <? score)%Z with true by (symmetry; apply Z.ltb_lt; lia) end.
    reflexivity.
Qed.

(** ** The session, continued *)

(** X12. In a session the countdown, when shown, is one of 3, 2, 1 and 0:
    it is set to 3 and the timer that decrements it is armed only above
    zero. *)
Theorem countdown_stays_within_three (questions : list InterviewQuestion)
    (s : MockInterviewState) :
  Session.session_reachable questions s ->
  forall c, countdown s = Some c -> 0 <= c <= 3.
Proof.
  induction 1 as [|s a Hs IH Hcan Hguard]; [discriminate|].
  destruct a; simpl in *; try exact IH; try discriminate.
  - intros c Hc. injection Hc as <-. lia.
  - unfold Session.timer_armed in Hguard.
    destruct (countdown s) as [c0|]; [|discriminate].
    intros c Hc. injection Hc as <-.
    specialize (IH c0 eq_refl). apply negb_true_iff, Z.eqb_neq in Hguard. lia.
  - destruct (_ <? _)%Z; exact IH.
Qed.

Lemma countdown_stays_within_three_witness :
  countdown (reduce_all initialState
               [PLAY_QUESTION_AUDIO; FINISH_QUESTION_AUDIO; START_COUNTDOWN;
                DECREMENT_COUNTDOWN; DECREMENT_COUNTDOWN])
  = Some 1
  /\ 0 <= 1 <= 3.
Proof.
  split; [reflexivity|].
  apply (countdown_stays_within_three Scenario.questions
           (reduce_all initialState
              [PLAY_QUESTION_AUDIO; FINISH_QUESTION_AUDIO; START_COUNTDOWN;
               DECREMENT_COUNTDOWN; DECREMENT_COUNTDOWN])).
  - unfold reduce_all. cbn [foldl].
    repeat (apply Session.session_dispatch;
            [| reflexivity | first [exact I | reflexivity]]).
    apply Session.session_initial.
  - reflexivity.
Defined.

(** X13. In a session over a list of [N] questions the index never leaves
    the list: it is 0, or positive and below [N]; the same holds of the
    indices that have an answer. Over a list that is not empty there is
    therefore always a current question. *)
Theorem session_index_within_questions (questions : list InterviewQuestion)
    (s : MockInterviewState) :
  Session.session_reachable questions s ->
  let N := Z.of_nat (List.length questions) in
  (currentIndex s = 0 \/ 0 < currentIndex s < N)
  /\ (forall i, is_Some (answers s !! i) -> i = 0 \/ 0 < i < N)
  /\ (questions <> [] -> is_Some (nth_question questions (currentIndex s))).
Proof.
  intros Hs N.
  assert ((currentIndex s = 0 \/ 0 < currentIndex s < N)
          /\ (forall i, is_Some (answers s !! i) -> i = 0 \/ 0 < i < N)) as [Hidx Hans].
  { induction Hs as [|s a Hs [IHidx IHans] Hcan Hguard].
    - split; [left; reflexivity|]. intros i [x Hx]. simpl in Hx.
      rewrite lookup_empty in Hx. discriminate.
    - destruct a; simpl in *; try (split; assumption).
      + split; [left; reflexivity|]. intros i [x Hx].
        rewrite lookup_empty in Hx. discriminate.
      + split; [left; reflexivity|]. intros i [x Hx].
        rewrite lookup_empty in Hx. discriminate.
      + split; [assumption|]. intros i Hi.
        destruct (decide (currentIndex s = i)) as [<-|Hne]; [assumption|].
        rewrite lookup_insert_ne in Hi by assumption. auto.
      + subst questions0. fold N.
        destruct (Z.ltb_spec (currentIndex s) (N - 1)); simpl; split; auto.
        right. lia. }
  split; [exact Hidx|]. split; [exact Hans|].
  intros Hne. unfold nth_question.
  assert (0 < N) by (subst N; destruct questions; [contradiction | simpl; lia]).
  destruct (Z.ltb_spec (currentIndex s) 0); [lia|].
  apply lookup_lt_is_Some_2. lia.
Qed.

Lemma session_index_within_questions_witness :
  is_Some (nth_question Scenario.questions
             (currentIndex (mockInterviewReducer
                              (mockInterviewReducer initialState
                                 (FINISH_PROCESSING (no_audio_answer "blob:answer-1")))
                              (NEXT_QUESTION Scenario.questions)))).
Proof.
  apply (session_index_within_questions Scenario.questions).
  - repeat (apply Session.session_dispatch;
            [| reflexivity | first [exact I | reflexivity]]).
    apply Session.session_initial.
  - discriminate.
Defined.

(** X14. In every state that the component can reach, a session in step
    [feedback] has an answer for the current question, and the recording
    clock is not negative. *)
Theorem feedback_has_an_answer (s : MockInterviewState) :
  reachable s ->
  (step s = StepFeedback -> is_Some (answers s !! currentIndex s))
  /\ 0 <= recordingTime s.
Proof.
  induction 1 as [|s a Hs [IHans IHtime] Hcan].
  - split; [discriminate | reflexivity].
  - destruct a; simpl in *; try (split; [assumption | lia]);
      try (split; [discriminate | lia]).
    + split; [|assumption]. intros _. rewrite lookup_insert_eq. eauto.
    + destruct (_ <? _)%Z; simpl; split; try discriminate; assumption.
Qed.

Lemma feedback_has_an_answer_witness :
  is_Some (answers (mockInterviewReducer initialState
                      (FINISH_PROCESSING (no_audio_answer "blob:answer-1"))) !! 0).
Proof.
  apply (proj1 (feedback_has_an_answer
                  (mockInterviewReducer initialState
                     (FINISH_PROCESSING (no_audio_answer "blob:answer-1")))
                  (reachable_dispatch initialState
                     (FINISH_PROCESSING (no_audio_answer "blob:answer-1"))
                     reachable_initial eq_refl))).
  reflexivity.
Defined.

(** X15. Pressing Next [k] times from index [i] of a list of [N]
    questions leaves the index at [i + k], capped at [N - 1]; the step is
    [question] as long as the cap is not passed and [summary] from then
    on. The summary is reached by the press that follows the last
    question and not before. *)
Theorem NEXT_QUESTION_repeated (questions : list InterviewQuestion) (k : nat)
    (s : MockInterviewState) :
  let N := Z.of_nat (List.length questions) in
  0 <= currentIndex s <= N - 1 ->
  (0 < k)%nat ->
  let s' := reduce_all s (List.repeat (NEXT_QUESTION questions) k) in
  currentIndex s' = Z.min (currentIndex s + Z.of_nat k) (N - 1)
  /\ step s' = (if (currentIndex s + Z.of_nat k <=? N - 1)%Z
                then StepQuestion else StepSummary).
Proof.
  intros N. revert s. induction k as [|k IH]; intros s Hidx Hk; [lia|].
  destruct k as [|k].
  - cbv zeta. change (Z.of_nat 1) with 1. unfold reduce_all.
    cbn [List.repeat foldl]. unfold mockInterviewReducer. fold N.
    destruct (Z.ltb_spec (currentIndex s) (N - 1)),
             (Z.leb_spec (currentIndex s + 1) (N - 1)); simpl; try lia; split;
      try reflexivity; lia.
  - intros s'. subst s'.
    change (reduce_all s (List.repeat (NEXT_QUESTION questions) (S (S k))))
      with (reduce_all (mockInterviewReducer s (NEXT_QUESTION questions))
              (List.repeat (NEXT_QUESTION questions) (S k))).
    set (s1 := mockInterviewReducer s (NEXT_QUESTION questions)).
    assert (currentIndex s1 = Z.min (currentIndex s + 1) (N - 1)) as H1.
    { subst s1. simpl. fold N.
      destruct (Z.ltb_spec (currentIndex s) (N - 1)); simpl; lia. }
    destruct (IH s1 ltac:(lia) ltac:(lia)) as [Hi Hstep].
    rewrite Hi, Hstep, H1. split; [lia|].
    destruct (Z.leb_spec (Z.min (currentIndex s + 1) (N - 1) + Z.of_nat (S k)) (N - 1)),
             (Z.leb_spec (currentIndex s + Z.of_nat (S (S k))) (N - 1));
      try reflexivity; lia.
Qed.

Lemma NEXT_QUESTION_repeated_witness :
  step (reduce_all Scenario.answered
          (List.repeat (NEXT_QUESTION Scenario.questions) 2))
  = StepSummary.
Proof.
  apply (NEXT_QUESTION_repeated Scenario.questions 2 Scenario.answered).
  - simpl. lia.
  - lia.
Defined.

(** The URLs stored in a map of answers. *)
Lemma elem_of_stored_urls (m : gmap Z AnswerFeedback) (url : string) :
  url ∈ Session.stored_urls m <->
  exists i a, m !! i = Some a /\ userAudioUrl a = Some url /\ url <> EmptyString.
Proof.
  unfold Session.stored_urls. rewrite list_elem_of_omap. split.
  - intros ([i a] & Hin & Hurl). apply elem_of_map_to_list in Hin. simpl in Hurl.
    destruct (userAudioUrl a) as [u|] eqn:Hu; [|discriminate].
    destruct u as [|c r]; simpl in Hurl; [discriminate|].
    injection Hurl as <-. exists i, a. repeat split; [assumption.. | discriminate].
  - intros (i & a & Hm & Hu & Hne). exists (i, a).
    split; [now apply elem_of_map_to_list|].
    simpl. rewrite Hu. destruct url; [contradiction | reflexivity].
Qed.

Lemma In_handleClose (state : MockInterviewState) (e : event) :
  In e (Session.handleClose state) <->
  exists i answer url,
    answers state !! i = Some answer
    /\ userAudioUrl answer = Some url
    /\ url <> EmptyString
    /\ e = RevokeObjectURL url.
Proof.
  unfold Session.handleClose.
  rewrite <- list_elem_of_In, list_elem_of_fmap. split.
  - intros (url & -> & Hurl). apply elem_of_stored_urls in Hurl as (i & a & H1 & H2 & H3).
    exists i, a, url. auto.
  - intros (i & a & url & H1 & H2 & H3 & ->). exists url. split; [reflexivity|].
    apply elem_of_stored_urls. eauto.
Qed.

(** X16. [handleClose] revokes the URL of every answer that has one, and
    nothing else. *)
Theorem handleClose_revokes_stored (state : MockInterviewState) (e : event) :
  In e (Session.handleClose state) <->
  exists i answer url,
    answers state !! i = Some answer
    /\ userAudioUrl answer = Some url
    /\ url <> EmptyString
    /\ e = RevokeObjectURL url.
Proof. exact (In_handleClose state e). Qed.

(** ** The recorded clips *)

Lemma run_app (s : MockInterviewState) (t1 t2 : list event) :
  run s (t1 ++ t2) = run (run s t1) t2.
Proof. apply foldl_app. Qed.

Lemma run_gateway_calls (s : MockInterviewState) (t : list event) :
  Forall (fun e => Session.is_gateway_call e = true) t -> run s t = s.
Proof.
  induction 1 as [|e t He _ IH]; [reflexivity|].
  destruct e; try discriminate; exact IH.
Qed.

Lemma urls_after_app (live : gset string) (t1 t2 : list event) :
  Session.urls_after live (t1 ++ t2) = Session.urls_after (Session.urls_after live t1) t2.
Proof. apply foldl_app. Qed.

Lemma urls_after_gateway_calls (live : gset string) (t : list event) :
  Forall (fun e => Session.is_gateway_call e = true) t -> Session.urls_after live t = live.
Proof.
  induction 1 as [|e t He _ IH]; [reflexivity|].
  destruct e; try discriminate; exact IH.
Qed.

Lemma urls_after_revocations (urls : list string) (live : gset string) :
  Session.urls_after live (RevokeObjectURL <$> urls) = live ∖ list_to_set urls.
Proof.
  revert live. induction urls as [|u urls IH]; intros live; simpl.
  - set_solver.
  - unfold Session.urls_after in *. simpl. rewrite IH. set_solver.
Qed.

(** The URL that the callback revokes, as a set. *)
Lemma urls_after_released (live : gset string) (previous : option string) :
  Session.urls_after live
    (match previous with
     | Some url => if is_empty url then [] else [RevokeObjectURL url]
     | None => []
     end)
  = live ∖ (match previous with
            | Some url => if is_empty url then ∅ else {[url]}
            | None => ∅
            end).
Proof.
  destruct previous as [url|]; [destruct (is_empty url)|]; unfold Session.urls_after;
    simpl; set_solver.
Qed.

(** The events of [handleStopRecording] on a running recorder: the two
    dispatches that open it, the release of the previous URL, the
    creation of the new one, the calls to the gateway, and the ending. *)
Lemma stop_outcome `{R : Runtime} (out : Outside) (state : MockInterviewState)
    (questions : list InterviewQuestion) (jobRole : string) (audioChunks : list Blob) :
  exists calls ending,
    handleStopRecording out (Some recording) state questions jobRole audioChunks
    = (Dispatch STOP_RECORDING :: Dispatch START_PROCESSING ::
       match previous_url state with
       | Some url => if is_empty url then [] else [RevokeObjectURL url]
       | None => []
       end ++
       CreateObjectURL (new_Blob audioChunks) (createObjectURL out (new_Blob audioChunks))
       :: calls ++ ending)%list
    /\ Forall (fun e => Session.is_gateway_call e = true) calls
    /\ Session.stop_ending (createObjectURL out (new_Blob audioChunks)) ending.
Proof.
  unfold handleStopRecording, Session.stop_ending. rewrite onstop_trace. cbv zeta.
  destruct (size _ <? 200)%Z.
  { exists [], [Dispatch (FINISH_PROCESSING
                            (no_audio_answer (createObjectURL out (new_Blob audioChunks))))].
    split; [reflexivity|]. split; [constructor|]. left. eauto. }
  destruct (transcribeAudio _ _) as [transcribedText|e|].
  2: { exists [TranscribeAudio (new_Blob audioChunks)],
         [Dispatch (PROCESSING_ERROR (error_message e))].
       split; [reflexivity|]. split; [repeat constructor|]. right. left. eauto. }
  2: { exists [TranscribeAudio (new_Blob audioChunks)], [].
       split; [reflexivity|]. split; [repeat constructor|]. right. right. reflexivity. }
  destruct (is_empty _).
  { exists [TranscribeAudio (new_Blob audioChunks)],
      [Dispatch (FINISH_PROCESSING
                   (not_understood_answer (createObjectURL out (new_Blob audioChunks))))].
    split; [reflexivity|]. split; [repeat constructor|]. left. eauto. }
  destruct (nth_question _ _) as [q|].
  2: { exists [TranscribeAudio (new_Blob audioChunks)],
         [Dispatch (PROCESSING_ERROR (error_message TypeError))].
       split; [reflexivity|]. split; [repeat constructor|]. right. left. eauto. }
  destruct (generateAnswerFeedback _) as [feedback|e|].
  - eexists [TranscribeAudio (new_Blob audioChunks);
             GenerateAnswerFeedback (question q) transcribedText jobRole], [_].
    split; [reflexivity|]. split; [repeat constructor|]. left. eauto.
  - exists [TranscribeAudio (new_Blob audioChunks);
            GenerateAnswerFeedback (question q) transcribedText jobRole],
      [Dispatch (PROCESSING_ERROR (error_message e))].
    split; [reflexivity|]. split; [repeat constructor|]. right. left. eauto.
  - exists [TranscribeAudio (new_Blob audioChunks);
            GenerateAnswerFeedback (question q) transcribedText jobRole], [].
    split; [reflexivity|]. split; [repeat constructor|]. right. right. reflexivity.
Qed.

(** What [stop_outcome] gives for the session and for the live URLs. *)
Lemma stop_effects `{R : Runtime} (out : Outside) (state : MockInterviewState)
    (questions : list InterviewQuestion) (jobRole : string) (audioChunks : list Blob)
    (live : gset string) :
  let events := handleStopRecording out (Some recording) state questions jobRole
                  audioChunks in
  let url := createObjectURL out (new_Blob audioChunks) in
  exists ending,
    run state events
    = run (mockInterviewReducer (mockInterviewReducer state STOP_RECORDING)
             START_PROCESSING)
          ending
    /\ Session.urls_after live events
       = {[url]} ∪ (live ∖ (match previous_url state with
                            | Some old => if is_empty old then ∅ else {[old]}
                            | None => ∅
                            end))
    /\ Session.stop_ending url ending.
Proof.
  intros events url. subst events url.
  destruct (stop_outcome out state questions jobRole audioChunks)
    as (calls & ending & -> & Hcalls & Hending).
  exists ending. split; [|split; [|exact Hending]].
  - rewrite !run_cons_dispatch, run_released.
    rewrite (run_cons_silent _ (CreateObjectURL _ _)) by discriminate.
    rewrite run_app, (run_gateway_calls _ _ Hcalls). reflexivity.
  - change (Session.urls_after live (Dispatch STOP_RECORDING :: Dispatch START_PROCESSING :: ?t))
      with (Session.urls_after live t).
    rewrite urls_after_app, urls_after_released.
    change (Session.urls_after ?l (CreateObjectURL ?b ?u :: ?t))
      with (Session.urls_after ({[u]} ∪ l) t).
    rewrite urls_after_app, (urls_after_gateway_calls _ _ Hcalls).
    destruct Hending as [(answer & -> & _)|[(message & ->)| ->]]; reflexivity.
Qed.

(** X17. When processing ends in [feedback], the clips leak nothing: if
    the live URLs were those of the stored answers and the new URL is not
    empty, then after the stop and a later close no URL of the session is
    live. Processing has ended when [isProcessing] is false again. *)
Theorem stored_clips_are_all_released `{R : Runtime} (out : Outside) (state : MockInterviewState)
    (questions : list InterviewQuestion) (jobRole : string) (audioChunks : list Blob) :
  let events := handleStopRecording out (Some recording) state questions jobRole
                  audioChunks in
  let final := run state events in
  createObjectURL out (new_Blob audioChunks) <> EmptyString ->
  isProcessing final = false ->
  step final = StepFeedback ->
  Session.urls_after (list_to_set (Session.stored_urls (answers state)))
    (events ++ Session.handleClose final)
  = ∅.
Proof.
  intros events final Hurl Hended Hstep. subst final.
  destruct (stop_effects out state questions jobRole audioChunks
              (list_to_set (Session.stored_urls (answers state))))
    as (ending & Hrun & Hlive & Hending).
  fold events in Hrun, Hlive |- *.
  rewrite urls_after_app, Hlive. unfold Session.handleClose.
  rewrite urls_after_revocations, Hrun. rewrite Hrun in Hstep, Hended.
  destruct Hending as [(answer & -> & Hanswer)|[(message & ->)| ->]];
    [|discriminate|discriminate].
  simpl. apply set_eq. intros x. rewrite elem_of_difference, elem_of_union,
    elem_of_singleton, elem_of_difference, !elem_of_list_to_set, !elem_of_stored_urls.
  split; [|set_solver].
  intros [[->|[(i & a & Hi & Ha & Hne) Hrel]] Hnot].
  - exfalso. apply Hnot. exists (currentIndex state), answer.
    rewrite lookup_insert_eq. auto.
  - exfalso. destruct (decide (currentIndex state = i)) as [<-|Hi'].
    + apply Hrel. unfold previous_url. rewrite Hi. simpl. rewrite Ha.
      destruct x; [contradiction|]. simpl. set_solver.
    + apply Hnot. exists i, a. rewrite lookup_insert_ne by assumption. auto.
Qed.

Lemma stored_clips_are_all_released_witness :
  Session.urls_after (list_to_set (Session.stored_urls (answers Scenario.answered)))
    (handleStopRecording (R := JSONText.reference)
       (Scenario.outside (Resolved (Some "  ")) (Resolved None))
       (Some recording) Scenario.answered Scenario.questions "Backend Developer"
       Scenario.spoken_clip
     ++ Session.handleClose
          (run Scenario.answered
             (handleStopRecording (R := JSONText.reference)
                (Scenario.outside (Resolved (Some "  ")) (Resolved None))
                (Some recording) Scenario.answered Scenario.questions "Backend Developer"
                Scenario.spoken_clip)))
  = ∅.
Proof.
  apply (stored_clips_are_all_released (R := JSONText.reference)
           (Scenario.outside (Resolved (Some "  ")) (Resolved None))
           Scenario.answered Scenario.questions "Backend Developer" Scenario.spoken_clip).
  - discriminate.
  - reflexivity.
  - reflexivity.
Defined.

(** X18. When processing ends in [error], the answers are left as they
    were: the URL created for the clip is stored nowhere, so a later close
    does not revoke it, and a URL that the callback revoked for a retry
    is still stored and is revoked a second time by the close. *)
Theorem failed_clip_is_not_released `{R : Runtime} (out : Outside) (state : MockInterviewState)
    (questions : list InterviewQuestion) (jobRole : string) (audioChunks : list Blob) :
  let events := handleStopRecording out (Some recording) state questions jobRole
                  audioChunks in
  let final := run state events in
  let stored : gset string := list_to_set (Session.stored_urls (answers state)) in
  step final = StepError ->
  answers final = answers state
  /\ Session.urls_after stored (events ++ Session.handleClose final)
     = {[createObjectURL out (new_Blob audioChunks)]} ∖ stored
  /\ forall old, previous_url state = Some old -> old <> EmptyString ->
       In (RevokeObjectURL old) events
       /\ In (RevokeObjectURL old) (Session.handleClose final).
Proof.
  intros events final stored Hstep. subst final.
  destruct (stop_effects out state questions jobRole audioChunks stored)
    as (ending & Hrun & Hlive & Hending).
  fold events in Hrun, Hlive |- *.
  rewrite Hrun in Hstep |- *.
  assert (answers (run (mockInterviewReducer (mockInterviewReducer state STOP_RECORDING)
                          START_PROCESSING) ending) = answers state) as Hanswers.
  { destruct Hending as [(answer & -> & _)|[(message & ->)| ->]];
      [discriminate | reflexivity | reflexivity]. }
  split; [exact Hanswers|]. split.
  - rewrite urls_after_app, Hlive. unfold Session.handleClose.
    rewrite urls_after_revocations, Hanswers. fold stored. set_solver.
  - intros old Hold Hne.
    assert (is_empty old = false) as Hfull by (destruct old; [contradiction | reflexivity]).
    split.
    + subst events.
      destruct (stop_outcome out state questions jobRole audioChunks)
        as (calls & ending' & -> & _ & _).
      rewrite Hold, Hfull. simpl. auto.
    + apply In_handleClose. rewrite Hanswers.
      unfold previous_url in Hold.
      destruct (answers state !! currentIndex state) as [a|] eqn:Ha; [|discriminate].
      exists (currentIndex state), a, old. auto.
Qed.

Lemma failed_clip_is_not_released_witness :
  answers (run Scenario.answered
             (handleStopRecording (R := JSONText.reference)
                (Scenario.outside (Rejected (Error "503")) (Resolved None))
                (Some recording) Scenario.answered Scenario.questions "Backend Developer"
                Scenario.spoken_clip))
  = answers Scenario.answered.
Proof.
  apply (failed_clip_is_not_released (R := JSONText.reference)
           (Scenario.outside (Rejected (Error "503")) (Resolved None))
           Scenario.answered Scenario.questions "Backend Developer" Scenario.spoken_clip).
  reflexivity.
Defined.

(** X19. When the clip is large enough, its transcript is not blank, there
    is a current question and both calls succeed, the answer stored for the
    current index is the transcript with the structured feedback and the
    URL of the clip, the step is [feedback], and the gateway was called
    twice: for the transcript first, then for the feedback on that
    transcript and that question. *)
Theorem processed_answer_is_stored `{R : Runtime} (out : Outside) (state : MockInterviewState)
    (questions : list InterviewQuestion) (jobRole : string) (audioChunks : list Blob)
    (transcribedText : string) (q : InterviewQuestion) (structured : json) :
  200 <= size (new_Blob audioChunks) ->
  transcribeAudio (new_File out (new_Blob audioChunks) "audio/webm") (transcription out)
  = Return transcribedText ->
  trim transcribedText <> EmptyString ->
  nth_question questions (currentIndex state) = Some q ->
  generateAnswerFeedback (feedback_generation out) = Return structured ->
  let events := handleStopRecording out (Some recording) state questions jobRole
                  audioChunks in
  let final := run state events in
  step final = StepFeedback
  /\ isProcessing final = false
  /\ answers final !! currentIndex state
     = Some {| userAnswer := transcribedText;
               feedback := Structured structured;
               userAudioUrl := Some (createObjectURL out (new_Blob audioChunks)) |}
  /\ List.filter Session.is_gateway_call events
     = [TranscribeAudio (new_Blob audioChunks);
        GenerateAnswerFeedback (question q) transcribedText jobRole].
Proof.
  intros Hsize Htext Hblank Hq Hfeedback events final. subst final events.
  apply Z.ltb_ge in Hsize.
  assert (is_empty (trim transcribedText) = false) as Hfull.
  { destruct (is_empty _) eqn:H; [|reflexivity]. apply is_empty_true in H. contradiction. }
  split; [|split; [|split]].
  - after_stop. rewrite Hsize, Htext, Hfull, Hq, Hfeedback. reflexivity.
  - after_stop. rewrite Hsize, Htext, Hfull, Hq, Hfeedback. reflexivity.
  - after_stop. rewrite Hsize, Htext, Hfull, Hq, Hfeedback.
    after_transcription. after_feedback_request. simpl. apply lookup_insert_eq.
  - unfold handleStopRecording. rewrite onstop_trace. cbv zeta.
    rewrite Hsize, Htext, Hfull, Hq, Hfeedback.
    destruct (previous_url state) as [url|]; [destruct (is_empty url)|]; reflexivity.
Qed.

Lemma processed_answer_is_stored_witness :
  step (run initialState
          (handleStopRecording (R := JSONText.reference)
             (Scenario.outside (Resolved (Some " I test the contract first. "))
                (Resolved (Some Scenario2.feedback_text)))
             (Some recording) initialState Scenario.questions "Backend Developer"
             Scenario.spoken_clip))
  = StepFeedback.
Proof.
  apply (processed_answer_is_stored (R := JSONText.reference)
           (Scenario.outside (Resolved (Some " I test the contract first. "))
              (Resolved (Some Scenario2.feedback_text)))
           initialState Scenario.questions "Backend Developer" Scenario.spoken_clip
           "I test the contract first."
           {| question := "Tell me about yourself.";
              category := HR;
              suggestedAnswer := "I am a backend developer with five years of experience." |}
           (JObj [("clarity", JNum "4"); ("structure", JNum "3"); ("relevance", JNum "5");
                  ("overallImpression", JStr "Clear.");
                  ("improvementPoints", JArr [JStr "Use numbers."])])).
  - vm_compute. discriminate.
  - reflexivity.
  - discriminate.
  - reflexivity.
  - vm_compute. reflexivity.
Defined.

(** X25. Processing ends, with [isProcessing] false again, exactly when
    the clip is below 200 bytes or has been read, and then in step
    [feedback] or [error]; when transcription or feedback generation
    fails, the step is [error] and the message of the failure is in the
    [error] field. *)
Theorem processing_failure_reaches_error `{R : Runtime}
    (out : Outside) (state : MockInterviewState) (questions : list InterviewQuestion)
    (jobRole : string) (audioChunks : list Blob) :
  let audioFile := new_File out (new_Blob audioChunks) "audio/webm" in
  let final := run state (handleStopRecording out (Some recording) state questions
                            jobRole audioChunks) in
  (isProcessing final = false <->
     size (new_Blob audioChunks) < 200
     \/ readAsDataURL out (new_Blob audioChunks) <> None)
  /\ (isProcessing final = false -> step final = StepFeedback \/ step final = StepError)
  /\ (200 <= size (new_Blob audioChunks) ->
      forall e, transcribeAudio audioFile (transcription out) = Throw e ->
        step final = StepError /\ error final = Some (message e))
  /\ (200 <= size (new_Blob audioChunks) ->
      forall transcribedText q e,
        transcribeAudio audioFile (transcription out) = Return transcribedText ->
        trim transcribedText <> EmptyString ->
        nth_question questions (currentIndex state) = Some q ->
        generateAnswerFeedback (feedback_generation out) = Throw e ->
        step final = StepError /\ error final = Some (message e)).
Proof.
  intros audioFile final. subst final audioFile. after_stop.
  pose proof (generateAnswerFeedback_settles (feedback_generation out)) as Hfeedback.
  pose proof (transcribeAudio_unfold (new_File out (new_Blob audioChunks) "audio/webm")
                (transcription out)) as Hread.
  unfold new_File in Hread at 2. simpl in Hread.
  split; [|split; [|split]].
  - destruct (Z.ltb_spec (size (new_Blob audioChunks)) 200) as [Hsize|Hsize].
    { split; [auto | reflexivity]. }
    after_transcription.
    destruct (readAsDataURL out (new_Blob audioChunks)) as [url|].
    + assert (transcribeAudio (new_File out (new_Blob audioChunks) "audio/webm")
                (transcription out) <> Pending) as Hsettles.
      { rewrite Hread. destruct (transcription out) as [reason|[text|]]; discriminate. }
      split; [intros _; right; discriminate | intros _].
      destruct (transcribeAudio _ _) as [transcribedText|e|];
        [|reflexivity|congruence].
      destruct (is_empty _); [reflexivity|].
      destruct (nth_question _ _) as [q|]; [|reflexivity]. after_feedback_request.
      destruct (generateAnswerFeedback _); [reflexivity | reflexivity | congruence].
    + rewrite Hread. simpl. split; [discriminate|].
      intros [H|H]; [lia | congruence].
  - destruct (size _ <? 200)%Z; [left; reflexivity|]. after_transcription.
    destruct (transcribeAudio _ _) as [transcribedText|e|];
      [|right; reflexivity|discriminate].
    destruct (is_empty _); [left; reflexivity|].
    destruct (nth_question _ _) as [q|]; [|right; reflexivity]. after_feedback_request.
    destruct (generateAnswerFeedback _); [left; reflexivity | right; reflexivity | congruence].
  - intros Hsize e He. apply Z.ltb_ge in Hsize. rewrite Hsize, He.
    after_transcription.
    apply transcribeAudio_Throw in He as ->. split; reflexivity.
  - intros Hsize transcribedText q e Htext Hblank Hq He.
    apply Z.ltb_ge in Hsize. rewrite Hsize, Htext, Hq, He.
    assert (is_empty (trim transcribedText) = false) as ->.
    { destruct (is_empty _) eqn:H; [|reflexivity].
      apply is_empty_true in H. contradiction. }
    after_transcription. after_feedback_request.
    apply generateAnswerFeedback_Throw in He as ->. split; reflexivity.
Qed.

Lemma processing_failure_reaches_error_witness :
  let final := run initialState
                 (handleStopRecording (R := JSONText.reference)
                    (Scenario.outside (Rejected (Error "503")) (Resolved None))
                    (Some recording) initialState Scenario.questions "Backend Developer"
                    Scenario.spoken_clip) in
  step final = StepError
  /\ error final = Some (message (R := JSONText.reference) GenerationError_transcription).
Proof.
  apply (proj1 (proj2 (proj2 (processing_failure_reaches_error (R := JSONText.reference)
           (Scenario.outside (Rejected (Error "503")) (Resolved None))
           initialState Scenario.questions "Backend Developer" Scenario.spoken_clip)))).
  - vm_compute. discriminate.
  - reflexivity.
Defined.

(** ** Reading the question aloud *)

(** Nothing that [speakQuestion] awaits is built on a promise of the
    code's own: the synthesis and the two decodings return or throw. *)
Lemma textToSpeech_settles (outcome : Gateway.speech_outcome) :
  Gateway.textToSpeech outcome <> Pending.
Proof.
  unfold Gateway.textToSpeech.
  destruct outcome as [reason|response]; simpl; [discriminate|].
  destruct (Gateway.inline_audio response) as [audio|]; [|discriminate].
  destruct (is_empty audio); discriminate.
Qed.

Lemma decode_settles `{B : Audio.Base64} (base64 : string) :
  Audio.decode base64 <> Pending.
Proof. unfold Audio.decode. destruct (Audio.atob base64); discriminate. Qed.

Lemma decodeAudioData_settles `{C : Audio.AudioContext} (data : list Byte.byte)
    (sampleRate numChannels : Z) :
  Audio.decodeAudioData data sampleRate numChannels <> Pending.
Proof.
  unfold Audio.decodeAudioData. pose proof (Int16Array_settles data).
  destruct (Audio.Int16Array data); simpl; try congruence.
  destruct (Audio.createBuffer_accepts _ _ _); discriminate.
Qed.

(** X20. Whatever the speech synthesis and the decoding do, reading a
    question dispatches [PLAY_QUESTION_AUDIO] and then
    [FINISH_QUESTION_AUDIO] and nothing else, so the Record button of an
    idle question is enabled afterwards; a buffer is played exactly when
    the synthesis returned audio, the output context exists and both
    decodings succeeded. *)
Theorem speakQuestion_always_finishes `{B : Audio.Base64} `{C : Audio.AudioContext}
    (text : string) (outcome : Gateway.speech_outcome) (context_open : bool)
    (s : MockInterviewState) :
  let narration := Session.speakQuestion text outcome context_open in
  Session.dispatched narration = [PLAY_QUESTION_AUDIO; FINISH_QUESTION_AUDIO]
  /\ (forall buffer,
        In (Session.Played buffer) narration <->
        exists audio bytes,
          Gateway.textToSpeech outcome = Return audio
          /\ context_open = true
          /\ Audio.decode audio = Return bytes
          /\ Audio.decodeAudioData bytes 24000 1 = Return buffer)
  /\ (step s = StepQuestion -> isProcessing s = false -> countdown s = None ->
      isRecording s = false ->
      Record_button_enabled (reduce_all s (Session.dispatched narration)) = true).
Proof.
  intros narration.
  assert (Session.dispatched narration = [PLAY_QUESTION_AUDIO; FINISH_QUESTION_AUDIO])
    as Hdispatched.
  { subst narration. unfold Session.speakQuestion.
    pose proof (textToSpeech_settles outcome) as Hspeech.
    destruct (Gateway.textToSpeech outcome) as [audio|e|]; simpl;
      [|reflexivity|congruence].
    destruct (negb (is_empty audio) && context_open); [|reflexivity].
    pose proof (decode_settles audio) as Hdecode.
    destruct (Audio.decode audio) as [bytes|e|]; simpl; [|reflexivity|congruence].
    pose proof (decodeAudioData_settles bytes 24000 1) as Hbuffer.
    destruct (Audio.decodeAudioData bytes 24000 1); simpl;
      [reflexivity|reflexivity|congruence]. }
  split; [exact Hdispatched|]. split.
  - intros buffer. subst narration. unfold Session.speakQuestion.
    pose proof (textToSpeech_settles outcome) as Hsettles.
    destruct (Gateway.textToSpeech outcome) as [audio|e|] eqn:Hspeech; simpl;
      [| |congruence].
    2: { split; [intuition discriminate | intros (a & b & H & _); discriminate]. }
    assert (is_empty audio = false) as Hfull.
    { apply (proj1 (textToSpeech_cases outcome)) in Hspeech
        as (response & _ & _ & Hne).
      destruct audio; [contradiction | reflexivity]. }
    rewrite Hfull. destruct context_open; simpl.
    2: { split; [intuition discriminate | intros (a & b & _ & H & _); discriminate]. }
    pose proof (decode_settles audio) as Hdecodes.
    destruct (Audio.decode audio) as [bytes|e|] eqn:Hdecode; simpl; [| |congruence].
    2: { split; [intuition discriminate|].
         intros (a & b & Ha & _ & Hb & _). congruence. }
    pose proof (decodeAudioData_settles bytes 24000 1) as Hbuffers.
    destruct (Audio.decodeAudioData bytes 24000 1) as [decoded|e|] eqn:Hbuffer; simpl;
      [| |congruence].
    + split.
      * intros [H|[H|[H|[H|[]]]]]; try discriminate. injection H as <-.
        exists audio, bytes. auto.
      * intros (a & b & Ha & _ & Hb & Hc).
        injection Ha as <-. rewrite Hdecode in Hb. injection Hb as <-.
        rewrite Hbuffer in Hc. injection Hc as <-. auto.
    + split; [intuition discriminate|].
      intros (a & b & Ha & _ & Hb & Hc).
      injection Ha as <-. rewrite Hdecode in Hb. injection Hb as <-. congruence.
  - intros Hstep Hproc Hcount Hrec. rewrite Hdispatched.
    unfold reduce_all, Record_button_enabled. simpl.
    rewrite Hstep, Hproc, Hcount, Hrec. reflexivity.
Qed.

Lemma speakQuestion_always_finishes_witness :
  Record_button_enabled
    (reduce_all initialState
       (Session.dispatched
          (Session.speakQuestion (B := Audio.reference) (C := Audio.granted_limits)
             "Tell me about yourself."
             (Gateway.SpeechRejected (Error "quota")) true)))
  = true.
Proof.
  apply (speakQuestion_always_finishes (B := Audio.reference)
           (C := Audio.granted_limits) "Tell me about yourself."
           (Gateway.SpeechRejected (Error "quota")) true initialState);
    reflexivity.
Defined.

(** ** The callers of the gateway *)

(** What [generateInterviewQuestions] returns has a company name to read,
    and what it throws is its generation error. *)
Lemma generateInterviewQuestions_checks_presence_only_aux `{R : Runtime}
    (response : gateway_response) :
  (forall results, generateInterviewQuestions response = Return results ->
     present results "companyName")
  /\ (forall e, generateInterviewQuestions response = Throw e ->
        e = GenerationError_questions).
Proof.
  rewrite generateInterviewQuestions_unfold. split.
  - intros results. destruct response as [reason|text]; [discriminate|].
    destruct (parseAndValidateJSON text _) as [r|e|] eqn:Hp;
      [|discriminate|discriminate].
    intros H. injection H as <-.
    apply parseAndValidateJSON_Return in Hp as (t & _ & _ & _ & _ & Hkeys).
    destruct (proj1 (check_keys_Return _ _) Hkeys "companyName") as [H|[H _]];
      [simpl; auto | exact H | discriminate].
  - intros e. destruct response as [reason|text]; [intros H; now injection H|].
    destruct (parseAndValidateJSON text _); intros H;
      [discriminate | now injection H | now injection H].
Qed.

(** The two operations that read no file return or throw. *)
Lemma generateInterviewQuestions_settles `{R : Runtime} (response : gateway_response) :
  generateInterviewQuestions response <> Pending.
Proof.
  rewrite generateInterviewQuestions_unfold.
  destruct response as [reason|text]; [discriminate|].
  destruct (parseAndValidateJSON text _); discriminate.
Qed.

Lemma validateJobInput_settles `{R : Runtime} (response : gateway_response) :
  validateJobInput response <> Pending.
Proof.
  rewrite validateJobInput_unfold.
  destruct response as [reason|[text|]]; try discriminate.
  destruct (JSON_parse (trim text)); discriminate.
Qed.

(** What [generateInterviewQuestions] returns can be read at
    [companyName]. *)
Lemma generated_companyName `{R : Runtime} (response : gateway_response) (results : json) :
  generateInterviewQuestions response = Return results ->
  exists name, get results "companyName" = Return name.
Proof.
  intros Hgen.
  apply (proj1 (generateInterviewQuestions_checks_presence_only_aux response)) in Hgen.
  unfold present, is_undefined in Hgen.
  destruct (get results "companyName") as [name|e|]; [eauto | discriminate ..].
Qed.

(** [proceedWithGeneration] always reaches its [finally] block. *)
Lemma proceedWithGeneration_settles `{R : Runtime} (response : gateway_response)
    (role description level company : string) (s : App.State) :
  let s' := snd (App.proceedWithGeneration response role description level company s) in
  App.isLoading s' = false /\ App.loadingMessage s' = EmptyString.
Proof.
  cbv zeta. unfold App.proceedWithGeneration.
  pose proof (generateInterviewQuestions_settles response) as Hsettles.
  destruct (generateInterviewQuestions response) as [results|e|] eqn:Hgen; simpl;
    [| |congruence].
  - destruct (generated_companyName response results Hgen) as [name ->].
    split; reflexivity.
  - split; reflexivity.
Qed.

(** [handleGenerateQuestions] on a company name that is a string. *)
Lemma handleGenerateQuestions_unfold `{R : Runtime}
    (validation generation : gateway_response) (s : App.State) (company : string) :
  App.companyName s = JStr company ->
  App.handleGenerateQuestions validation generation s =
  if is_empty (trim (App.jobRole s)) || is_empty (trim (App.jobDescription s)) then
    Return ([], App.setAlertInfo
                  (Some ("Input Required",
                         Some (JStr "Please provide both a Job Role and a Job Description.")))
                  s)
  else
    let prepared := App.setLoadingMessage "Validating input..."
                      (App.setInterviewPrepData None
                         (App.setError None (App.setIsLoading true s))) in
    let asked := App.ValidateJobInput (trim (App.jobRole s)) (trim (App.jobDescription s)) in
    match validateJobInput validation with
    | Return verdict =>
        if App.status_is verdict "invalid" then
          Return ([asked],
                  App.setIsLoading false
                    (App.setAlertInfo (Some ("Invalid Input", field verdict "reason"))
                       prepared))
        else if App.status_is verdict "improvable" then
          Return ([asked],
                  App.setIsLoading false
                    (App.setValidationWarning (Some (field verdict "reason")) prepared))
        else
          Return (asked ::
                  [App.GenerateInterviewQuestions (trim (App.jobRole s))
                     (trim (App.jobDescription s)) (App.experienceLevel prepared)
                     (trim company)],
                  snd (App.proceedWithGeneration generation (trim (App.jobRole s))
                         (trim (App.jobDescription s)) (App.experienceLevel prepared)
                         (trim company) prepared))
    | Throw e => Throw e
    | Pending => Pending
    end.
Proof.
  intros Hcompany. unfold App.handleGenerateQuestions. rewrite Hcompany. simpl.
  destruct (is_empty _ || is_empty _); [reflexivity|].
  destruct (validateJobInput validation) as [verdict|e|]; simpl;
    [|reflexivity|reflexivity].
  destruct (App.status_is verdict "invalid"); [reflexivity|].
  destruct (App.status_is verdict "improvable"); reflexivity.
Qed.

(** X21. [handleGenerateQuestions] asks for the questions exactly when
    the trimmed role and description are not empty and the verdict of
    [validateJobInput] is neither [invalid] nor [improvable]; and it asks
    nothing of the gateway at all when one of the two is blank. *)
Theorem questions_are_requested_iff `{R : Runtime}
    (validation generation : gateway_response) (s : App.State)
    (calls : list App.call) (s' : App.State) :
  App.handleGenerateQuestions validation generation s = Return (calls, s') ->
  (existsb App.is_generation calls = true <->
     trim (App.jobRole s) <> EmptyString
     /\ trim (App.jobDescription s) <> EmptyString
     /\ exists verdict,
          validateJobInput validation = Return verdict
          /\ App.status_is verdict "invalid" = false
          /\ App.status_is verdict "improvable" = false)
  /\ (trim (App.jobRole s) = EmptyString \/ trim (App.jobDescription s) = EmptyString ->
      calls = []).
Proof.
  intros Hrun.
  destruct (App.companyName s) as [| | |company| |] eqn:Hcompany;
    try (unfold App.handleGenerateQuestions in Hrun; rewrite Hcompany in Hrun;
         discriminate).
  rewrite (handleGenerateQuestions_unfold _ _ _ company Hcompany) in Hrun.
  destruct (is_empty (trim (App.jobRole s))) eqn:Hrole; simpl in Hrun.
  { injection Hrun as <- <-. apply is_empty_true in Hrole.
    split; [|reflexivity]. split; [discriminate | tauto]. }
  destruct (is_empty (trim (App.jobDescription s))) eqn:Hdesc; simpl in Hrun.
  { injection Hrun as <- <-. apply is_empty_true in Hdesc.
    split; [|reflexivity]. split; [discriminate | tauto]. }
  assert (trim (App.jobRole s) <> EmptyString) as Hr.
  { intros H. apply is_empty_true in H. congruence. }
  assert (trim (App.jobDescription s) <> EmptyString) as Hd.
  { intros H. apply is_empty_true in H. congruence. }
  split; [|tauto].
  destruct (validateJobInput validation) as [verdict|e|]; [|discriminate|discriminate].
  destruct (App.status_is verdict "invalid") eqn:Hinvalid.
  { injection Hrun as <- <-. split; [discriminate|].
    intros (_ & _ & v & Hv & H1 & _). congruence. }
  destruct (App.status_is verdict "improvable") eqn:Himprovable.
  { injection Hrun as <- <-. split; [discriminate|].
    intros (_ & _ & v & Hv & _ & H2). congruence. }
  injection Hrun as <- <-. split; [|reflexivity].
  intros _. repeat split; try assumption. exists verdict. auto.
Qed.

Lemma questions_are_requested_iff_witness :
  exists calls s',
    App.handleGenerateQuestions (R := JSONText.reference)
      (Rejected (Error "offline")) (Rejected (Error "offline")) Scenario2.form
    = Return (calls, s')
    /\ existsb App.is_generation calls = true.
Proof.
  eexists _, _. split; [reflexivity|].
  apply (proj1 (questions_are_requested_iff (R := JSONText.reference)
                  (Rejected (Error "offline")) (Rejected (Error "offline"))
                  Scenario2.form _ _ eq_refl)).
  split; [discriminate|]. split; [discriminate|].
  eexists. split; [reflexivity|]. split; reflexivity.
Defined.

(** X22. The validation fails open: when its exchange is rejected, carries
    no text or carries a text that does not parse, a form with a role and
    a description goes on to ask for the questions, with the trimmed
    inputs. *)
Theorem failed_validation_does_not_block `{R : Runtime}
    (validation generation : gateway_response) (s : App.State) (company : string) :
  App.companyName s = JStr company ->
  trim (App.jobRole s) <> EmptyString ->
  trim (App.jobDescription s) <> EmptyString ->
  match validation with
  | Resolved (Some text) => JSON_parse (trim text) = None
  | _ => True
  end ->
  exists s',
    App.handleGenerateQuestions validation generation s
    = Return ([App.ValidateJobInput (trim (App.jobRole s)) (trim (App.jobDescription s));
               App.GenerateInterviewQuestions (trim (App.jobRole s))
                 (trim (App.jobDescription s)) (App.experienceLevel s) (trim company)],
              s')
    /\ App.isLoading s' = false.
Proof.
  intros Hcompany Hrole Hdesc Hfailed.
  rewrite (handleGenerateQuestions_unfold _ _ _ company Hcompany).
  assert (is_empty (trim (App.jobRole s)) = false) as ->.
  { destruct (is_empty _) eqn:H; [|reflexivity]. apply is_empty_true in H. contradiction. }
  assert (is_empty (trim (App.jobDescription s)) = false) as ->.
  { destruct (is_empty _) eqn:H; [|reflexivity]. apply is_empty_true in H. contradiction. }
  assert (validateJobInput validation = Return fallback_validation) as ->.
  { rewrite validateJobInput_unfold.
    destruct validation as [reason|[text|]]; try reflexivity. now rewrite Hfailed. }
  cbv iota beta zeta. change (App.status_is fallback_validation "invalid") with false.
  change (App.status_is fallback_validation "improvable") with false.
  cbv iota. eexists. split; [reflexivity|].
  apply proceedWithGeneration_settles.
Qed.

Lemma failed_validation_does_not_block_witness :
  exists s',
    App.handleGenerateQuestions (R := JSONText.reference)
      (Resolved None) (Rejected (Error "offline")) Scenario2.form
    = Return ([App.ValidateJobInput "Backend Developer" "Builds and tests services.";
               App.GenerateInterviewQuestions "Backend Developer"
                 "Builds and tests services." "1-3 Years" EmptyString],
              s')
    /\ App.isLoading s' = false.
Proof.
  apply (failed_validation_does_not_block (R := JSONText.reference)
           (Resolved None) (Rejected (Error "offline")) Scenario2.form EmptyString).
  - reflexivity.
  - discriminate.
  - discriminate.
  - exact I.
Defined.

(** X23. A verdict [invalid] or [improvable] stops the handler before any
    generation: the reason of the verdict goes into the alert or into the
    warning, the loading flag is cleared, and the package shown before is
    gone. *)
Theorem refused_input_is_reported `{R : Runtime}
    (validation generation : gateway_response) (s : App.State) (company : string)
    (verdict : json) :
  App.companyName s = JStr company ->
  trim (App.jobRole s) <> EmptyString ->
  trim (App.jobDescription s) <> EmptyString ->
  validateJobInput validation = Return verdict ->
  App.status_is verdict "invalid" = true \/ App.status_is verdict "improvable" = true ->
  exists s',
    App.handleGenerateQuestions validation generation s
    = Return ([App.ValidateJobInput (trim (App.jobRole s)) (trim (App.jobDescription s))],
              s')
    /\ App.isLoading s' = false
    /\ App.interviewPrepData s' = None
    /\ (App.status_is verdict "invalid" = true ->
        App.alertInfo s' = Some ("Invalid Input", field verdict "reason")
        /\ App.validationWarning s' = App.validationWarning s)
    /\ (App.status_is verdict "invalid" = false ->
        App.validationWarning s' = Some (field verdict "reason")
        /\ App.alertInfo s' = App.alertInfo s).
Proof.
  intros Hcompany Hrole Hdesc Hverdict Hstatus.
  rewrite (handleGenerateQuestions_unfold _ _ _ company Hcompany).
  assert (is_empty (trim (App.jobRole s)) = false) as ->.
  { destruct (is_empty _) eqn:H; [|reflexivity]. apply is_empty_true in H. contradiction. }
  assert (is_empty (trim (App.jobDescription s)) = false) as ->.
  { destruct (is_empty _) eqn:H; [|reflexivity]. apply is_empty_true in H. contradiction. }
  rewrite Hverdict. simpl.
  destruct (App.status_is verdict "invalid") eqn:Hinvalid.
  - eexists. split; [reflexivity|]. repeat split; discriminate.
  - destruct Hstatus as [|Himprovable]; [discriminate|]. rewrite Himprovable.
    eexists. split; [reflexivity|]. repeat split; discriminate.
Qed.

Lemma refused_input_is_reported_witness :
  exists s',
    App.handleGenerateQuestions (R := JSONText.reference)
      (Resolved (Some ("{" ++ Samples.quoted "status" ++ ":" ++ Samples.quoted "invalid"
                           ++ "," ++ Samples.quoted "reason" ++ ":"
                           ++ Samples.quoted "Unrelated." ++ "}")))
      (Rejected (Error "offline")) Scenario2.form
    = Return ([App.ValidateJobInput "Backend Developer" "Builds and tests services."], s')
    /\ App.isLoading s' = false.
Proof.
  destruct (refused_input_is_reported (R := JSONText.reference)
              (Resolved (Some ("{" ++ Samples.quoted "status" ++ ":" ++ Samples.quoted "invalid"
                                   ++ "," ++ Samples.quoted "reason" ++ ":"
                                   ++ Samples.quoted "Unrelated." ++ "}")))
              (Rejected (Error "offline")) Scenario2.form EmptyString
              (JObj [("status", JStr "invalid"); ("reason", JStr "Unrelated.")]))
    as (s' & Hrun & Hloading & _).
  - reflexivity.
  - discriminate.
  - discriminate.
  - vm_compute. reflexivity.
  - left. reflexivity.
  - exists s'. split; [exact Hrun | exact Hloading].
Defined.

(** X24. [proceedWithGeneration] always settles: whatever the gateway
    does, it ends with the loading flag cleared and the loading message
    empty; the result is stored when the gateway returned one, and
    otherwise the message of the gateway's error is in [error] and in
    the alert and no result is stored. [handleGenerateSolution] does the
    same when no file is attached or the attached file has been read.
    After a failed read of the file it never gets past the read: the
    loading flag stays set under the message of the solver and nothing
    is stored or reported. *)
Theorem generations_settle_once_read `{R : Runtime}
    (response : gateway_response) (s : App.State) :
  (forall role description level company,
     let s' := snd (App.proceedWithGeneration response role description level company s) in
     App.isLoading s' = false /\ App.loadingMessage s' = EmptyString
     /\ (forall results, generateInterviewQuestions response = Return results ->
           App.interviewPrepData s' = Some results /\ App.error s' = None)
     /\ (forall e, generateInterviewQuestions response = Throw e ->
           App.interviewPrepData s' = None
           /\ App.error s' = Some (message e)
           /\ App.alertInfo s' = Some ("Generation Failed", Some (JStr (message e)))))
  /\ (forall problem language file level,
        let s' := snd (App.handleGenerateSolution response problem language file level s) in
        (Gateway.unreadable file = false ->
         App.isLoading s' = false /\ App.loadingMessage s' = EmptyString
         /\ (forall result,
               Gateway.generateTechnicalSolution file response = Return result ->
               App.technicalSolution s' = Some result
               /\ App.solutionLanguage s' = language /\ App.error s' = None)
         /\ (forall e,
               Gateway.generateTechnicalSolution file response = Throw e ->
               App.technicalSolution s' = None
               /\ App.error s' = Some (message e)
               /\ App.alertInfo s' = Some ("Solution Failed", Some (JStr (message e)))))
        /\ (Gateway.unreadable file = true ->
            App.isLoading s' = true
            /\ App.loadingMessage s' = "Solving your problem..."
            /\ App.technicalSolution s' = None
            /\ App.error s' = None
            /\ App.alertInfo s' = App.alertInfo s)).
Proof.
  split.
  - intros role description level company s'. subst s'.
    unfold App.proceedWithGeneration.
    pose proof (generateInterviewQuestions_settles response) as Hsettles.
    destruct (generateInterviewQuestions response) as [results|e|] eqn:Hgen; simpl;
      [| |congruence].
    + destruct (generated_companyName response results Hgen) as [name Hname].
      rewrite Hname.
      destruct name as [v|]; [destruct (App.truthy (Some v))|];
        (split; [reflexivity|]; split; [reflexivity|]; split;
         [intros r H; injection H as <-; split; reflexivity | discriminate]).
    + split; [reflexivity|]. split; [reflexivity|]. split; [discriminate|].
      intros e' H. injection H as <-.
      apply (proj2 (generateInterviewQuestions_checks_presence_only_aux response)) in Hgen
        as ->.
      repeat split.
  - intros problem language file level s'. subst s'.
    unfold App.handleGenerateSolution.
    pose proof (generateTechnicalSolution_Pending file response) as Hpending.
    destruct (Gateway.generateTechnicalSolution file response) as [result|e|] eqn:Hgen;
      simpl.
    + split; [|intros H; apply Hpending in H; discriminate].
      intros _. split; [reflexivity|]. split; [reflexivity|]. split; [|discriminate].
      intros r H. injection H as <-. repeat split.
    + split; [|intros H; apply Hpending in H; discriminate].
      intros _. split; [reflexivity|]. split; [reflexivity|]. split; [discriminate|].
      intros e' H. injection H as <-.
      apply generateTechnicalSolution_Throw in Hgen as ->.
      repeat split.
    + split; [|intros _; repeat split].
      intros H. rewrite (proj1 Hpending eq_refl) in H. discriminate.
Qed.
